(** * Bitbucket AI code review pipe: diff selection and comment mapping

    A shallow embedding of [main.py]: the diff splitter
    ([BitbucketApiService.fetch_diffs]), the filename extractor
    ([CodeReviewPipe.get_files_with_diffs]), the review requester
    ([CodeReviewPipe.get_code_review]), the comment publisher
    ([CodeReviewPipe.add_comments]) and the orchestration ([CodeReviewPipe.run]).

    Conventions of the embedding.
    - A Python [str] is a [string]; text is ASCII / Latin-1, one character per
      [ascii], so that the regular-expression class [\d] is [0-9]. The one
      other character of the source, a typographic quote of the default
      prompt, is kept as its UTF-8 bytes.
    - A raised exception is the [Raise] result; the exception classes are the
      constructors of [exn].
    - Everything the program talks to (environment, HTTP endpoints, the
      completion service, the tokenizer, files) is a field of [World]; every
      call leaves an [event] in the trace. *)

From Stdlib Require Import String Ascii ZArith QArith List Lia Bool.
From stdpp Require Import base option list gmap strings.

Local Open Scope string_scope.
Local Open Scope list_scope.

(** Let [simpl] compute [+:+] on a text that starts with known characters. *)
#[local] Arguments String.append !_ _ /.

(** ** Exceptions and results *)

Inductive exn : Type :=
| ValueError
| TypeError
| AttributeError
| EnvironmentError
| HTTPError
| FileNotFoundError
| YAMLError
| BadRequestError
| JSONDecodeError
| LibraryError.

Inductive result (A : Type) : Type :=
| Ok (a : A)
| Raise (e : exn).
Arguments Ok {A} a.
Arguments Raise {A} e.

(** ** Python string primitives *)

Module PyStr.

(** [s.startswith(p)] *)
Definition startswith (s p : string) : bool := String.prefix p s.

(** [s[len(p):]] when [s.startswith(p)] *)
Fixpoint strip_prefix (p s : string) : option string :=
  match p with
  | EmptyString => Some s
  | String a p' =>
      match s with
      | EmptyString => None
      | String b s' => if Ascii.eqb a b then strip_prefix p' s' else None
      end
  end.

(** [s.partition(sep)] at the leftmost occurrence of [sep]; [None] when
    [sep] does not occur. *)
Fixpoint cut (sep s : string) : option (string * string) :=
  match strip_prefix sep s with
  | Some rest => Some (EmptyString, rest)
  | None =>
      match s with
      | EmptyString => None
      | String c s' =>
          match cut sep s' with
          | Some (a, b) => Some (String c a, b)
          | None => None
          end
      end
  end.

(** The pieces of [s.split(sep)] for a non-empty [sep]: cut at the leftmost
    occurrence, continue after it. The fuel bounds the number of cuts. *)
Fixpoint split_fuel (n : nat) (sep s : string) : list string :=
  match n with
  | O => [s]
  | S n' =>
      match cut sep s with
      | None => [s]
      | Some (a, b) => a :: split_fuel n' sep b
      end
  end.

(** [s.split(sep)]: an empty separator raises [ValueError]. *)
Definition split (s sep : string) : result (list string) :=
  match sep with
  | EmptyString => Raise ValueError
  | _ => Ok (split_fuel (String.length s) sep s)
  end.

(** [s.count(sub)] for a non-empty [sub]: occurrences found left to right,
    each search resuming after the previous occurrence. *)
Fixpoint count_fuel (n : nat) (sub s : string) : nat :=
  match n with
  | O => O
  | S n' =>
      match cut sub s with
      | None => O
      | Some (_, b) => S (count_fuel n' sub b)
      end
  end.

Definition count (s sub : string) : nat := count_fuel (String.length s) sub s.

(** Number of positions of [s] at which [sub] starts. *)
Fixpoint positions (sub s : string) : nat :=
  (match strip_prefix sub s with Some _ => 1 | None => 0 end) +
  match s with
  | EmptyString => 0
  | String _ s' => positions sub s'
  end.

(** [sep.join(l)] *)
Definition join (sep : string) (l : list string) : string := String.concat sep l.

(** ["".join(l)] *)
Definition concat (l : list string) : string := foldr String.append EmptyString l.

(** No line feed in [s]: the characters the pattern [.] accepts. *)
Fixpoint no_newline (s : string) : bool :=
  match s with
  | EmptyString => true
  | String c s' => negb (Ascii.eqb c "010") && no_newline s'
  end.

End PyStr.

(** ** The diff splitter *)

Definition DIFF_DELIMITER : string := "diff --git a/".

(** [BitbucketApiService.fetch_diffs(diffs, filenames, delimiter)].
    The delimiter is always a string at the call site. *)
Definition fetch_diffs (diffs : string) (filenames : list string) (delimiter : string)
  : result (list string) :=
  match PyStr.split diffs delimiter with
  | Raise e => Raise e
  | Ok pieces =>
      match filenames with
      | _ :: _ =>
          Ok (flat_map (fun diff =>
                flat_map (fun filename =>
                  if PyStr.startswith diff filename then [delimiter +:+ diff] else [])
                  filenames) pieces)
      | [] => Ok (map (fun diff => delimiter +:+ diff) pieces)
      end
  end.

(** ** Regular expressions

    The two patterns of the program are sequences of single-character items
    and capturing groups around one quantified character class. [match_here]
    is the backtracking matcher of Python's [re] on such sequences: a greedy
    [+] first tries to take one more character and gives it back when the
    rest of the pattern fails; a lazy [*?] first tries the rest of the pattern
    and takes one more character when that fails. *)

Module Re.

Inductive cclass : Type :=
| Dot                 (* [.] : any character but a line feed *)
| Digit               (* [\d] *)
| Lit (c : ascii).    (* the character itself *)

Definition is_digit (c : ascii) : bool :=
  let n := nat_of_ascii c in (48 <=? n)%nat && (n <=? 57)%nat.

Definition accepts (k : cclass) (c : ascii) : bool :=
  match k with
  | Dot => negb (Ascii.eqb c "010")
  | Digit => is_digit c
  | Lit a => Ascii.eqb a c
  end.

Inductive item : Type :=
| One (k : cclass)            (* one character of the class *)
| CapPlus (k : cclass)        (* [(k+)]  : capturing, greedy, at least one *)
| CapLazyStar (k : cclass).   (* [(k*?)] : capturing, lazy, possibly none *)

Definition pattern : Type := list item.

(** [k+] followed by the continuation [rest]: the captured text and the
    groups of the continuation. *)
Fixpoint greedy_plus (k : cclass) (rest : string -> option (list string)) (s : string)
  : option (string * list string) :=
  match s with
  | EmptyString => None
  | String c s' =>
      if accepts k c then
        match greedy_plus k rest s' with
        | Some (g, gs) => Some (String c g, gs)
        | None =>
            match rest s' with
            | Some gs => Some (String c EmptyString, gs)
            | None => None
            end
        end
      else None
  end.

(** [k*?] followed by the continuation [rest]. *)
Fixpoint lazy_star (k : cclass) (rest : string -> option (list string)) (s : string)
  : option (string * list string) :=
  match rest s with
  | Some gs => Some (EmptyString, gs)
  | None =>
      match s with
      | EmptyString => None
      | String c s' =>
          if accepts k c then
            match lazy_star k rest s' with
            | Some (g, gs) => Some (String c g, gs)
            | None => None
            end
          else None
      end
  end.

(** Match [p] at the start of [s]; the result lists the groups in order. *)
Fixpoint match_here (p : pattern) : string -> option (list string) :=
  match p with
  | [] => fun _ => Some []
  | One k :: p' => fun s =>
      match s with
      | EmptyString => None
      | String c s' => if accepts k c then match_here p' s' else None
      end
  | CapPlus k :: p' => fun s =>
      match greedy_plus k (match_here p') s with
      | Some (g, gs) => Some (g :: gs)
      | None => None
      end
  | CapLazyStar k :: p' => fun s =>
      match lazy_star k (match_here p') s with
      | Some (g, gs) => Some (g :: gs)
      | None => None
      end
  end.

(** [re.match(p, s)]: anchored at the start of [s] only. *)
Definition re_match (p : pattern) (s : string) : option (list string) := match_here p s.

(** [re.search(p, s)]: the leftmost start position at which [p] matches. *)
Fixpoint re_search (p : pattern) (s : string) : option (list string) :=
  match match_here p s with
  | Some gs => Some gs
  | None =>
      match s with
      | EmptyString => None
      | String _ s' => re_search p s'
      end
  end.

End Re.

(** [re.compile(r"a/(.*?) b/")] *)
Definition pattern_filename : Re.pattern :=
  [Re.One (Re.Lit "a"); Re.One (Re.Lit "/"); Re.CapLazyStar Re.Dot;
   Re.One (Re.Lit " "); Re.One (Re.Lit "b"); Re.One (Re.Lit "/")].

(** [re.compile(r"(.+):(\d+)")] *)
Definition pattern_filename_line : Re.pattern :=
  [Re.CapPlus Re.Dot; Re.One (Re.Lit ":"); Re.CapPlus Re.Digit].

(** ** The filename extractor *)

(** [re.search(pattern_filename, diff).group(1)], when the search succeeds *)
Definition search_filename (diff : string) : option string :=
  match Re.re_search pattern_filename diff with
  | Some (g :: _) => Some g
  | _ => None
  end.

(** [CodeReviewPipe.get_files_with_diffs(diffs_to_review)] *)
Definition get_files_with_diffs (diffs_to_review : list string) : list string :=
  flat_map (fun diff =>
    match search_filename diff with
    | Some name => [name]
    | None => []
    end) diffs_to_review.

(** ** Python values *)

(** What [json_repair.loads] can return, and what the request payloads are
    built of. [JNull] is Python's [None]. The keys of a [JObj] are in
    insertion order, as a Python [dict] iterates them. *)
#[warnings="-register-all"]
Inductive json : Type :=
| JNull
| JBool (b : bool)
| JInt (z : Z)
| JFloat (q : Q)
| JStr (s : string)
| JArr (l : list json)
| JObj (l : list (string * json)).

Module Py.

(** [bool(v)] *)
Definition truthy (v : json) : bool :=
  match v with
  | JNull => false
  | JBool b => b
  | JInt z => negb (z =? 0)%Z
  | JFloat q => negb (Qeq_bool q 0)
  | JStr s => negb (String.eqb s EmptyString)
  | JArr l => match l with [] => false | _ => true end
  | JObj l => match l with [] => false | _ => true end
  end.

(** [len(v)]: [TypeError] for a value without a length. *)
Definition len (v : json) : result nat :=
  match v with
  | JStr s => Ok (String.length s)
  | JArr l => Ok (length l)
  | JObj l => Ok (length l)
  | _ => Raise TypeError
  end.

Fixpoint lookup (key : string) (l : list (string * json)) : option json :=
  match l with
  | [] => None
  | (k, v) :: l' => if String.eqb k key then Some v else lookup key l'
  end.

(** [v.get(key)]: only a [dict] has the method. *)
Definition get (v : json) (key : string) : result json :=
  match v with
  | JObj l => Ok (default JNull (lookup key l))
  | _ => Raise AttributeError
  end.

(** [v.items()] *)
Definition items (v : json) : result (list (string * json)) :=
  match v with
  | JObj l => Ok l
  | _ => Raise AttributeError
  end.

(** [str(v)] inside an f-string, for a value read with [os.getenv] *)
Definition str_of_env (v : option string) : string := default "None" v.

(** [bool(v)] for a value read with [os.getenv] *)
Definition env_truthy (v : option string) : bool :=
  match v with
  | Some (String _ _) => true
  | _ => false
  end.

Definition of_env (v : option string) : json :=
  match v with
  | Some s => JStr s
  | None => JNull
  end.

(** Characters [int] strips: [str.isspace] below code point 256. *)
Definition is_space (c : ascii) : bool :=
  let n := nat_of_ascii c in
  ((9 <=? n)%nat && (n <=? 13)%nat) || ((28 <=? n)%nat && (n <=? 32)%nat)
  || (n =? 133)%nat || (n =? 160)%nat.

Fixpoint lstrip (s : string) : string :=
  match s with
  | String c s' => if is_space c then lstrip s' else s
  | EmptyString => EmptyString
  end.

Fixpoint rstrip (s : string) : string :=
  match s with
  | EmptyString => EmptyString
  | String c s' =>
      match rstrip s' with
      | EmptyString => if is_space c then EmptyString else String c EmptyString
      | r => String c r
      end
  end.

Definition digit_val (c : ascii) : Z := Z.of_nat (nat_of_ascii c) - 48.

(** Decimal digits, single underscores allowed between two digits. *)
Fixpoint digits (acc : Z) (after_digit : bool) (s : string) : option Z :=
  match s with
  | EmptyString => if after_digit then Some acc else None
  | String c s' =>
      if Re.is_digit c then digits (10 * acc + digit_val c) true s'
      else if Ascii.eqb c "_" then
        (if after_digit then digits acc false s' else None)
      else None
  end.

(** How many characters of [s] are decimal digits. *)
Fixpoint digit_count (s : string) : nat :=
  match s with
  | EmptyString => 0
  | String c s' => (if Re.is_digit c then 1 else 0) + digit_count s'
  end.

(** [sys.get_int_max_str_digits()]: the default of CPython, which the
    program leaves as it is. *)
Definition int_max_str_digits : nat := 4300.

(** [int(s)] in base ten: [ValueError] for anything but an optionally
    signed decimal literal surrounded by white space, and for a literal of
    more than [int_max_str_digits] digits; the sign and the underscores are
    not counted. *)
Definition int (s : string) : result Z :=
  let body := rstrip (lstrip s) in
  let parsed :=
    match body with
    | String "-" d => option_map Z.opp (digits 0 false d)
    | String "+" d => digits 0 false d
    | d => digits 0 false d
    end in
  match parsed with
  | Some z =>
      if (digit_count body <=? int_max_str_digits)%nat then Ok z else Raise ValueError
  | None => Raise ValueError
  end.

End Py.

(** [d.update(other)] for a [dict] [other]: a key already in [d] keeps its
    place and takes the new value, a new key goes to the end. *)
Module PyDict.

Fixpoint set (key : string) (v : json) (d : list (string * json)) : list (string * json) :=
  match d with
  | [] => [(key, v)]
  | (k, w) :: d' => if String.eqb k key then (k, v) :: d' else (k, w) :: set key v d'
  end.

Definition update (d other : list (string * json)) : list (string * json) :=
  fold_left (fun acc kv => set (fst kv) (snd kv) acc) other d.

Definition has_key (key : string) (d : list (string * json)) : bool :=
  match Py.lookup key d with
  | Some _ => true
  | None => false
  end.

End PyDict.

(** ** The outside world and the trace of a run *)

Inductive auth : Type :=
| HTTPBasicAuth (username password : string)
| TokenAuth (token : string).

Inductive level : Type := DEBUG | INFO | WARNING.

(** What a run does to the outside, in order. A [Log] record keeps the level
    and the message template of its call site. *)
Inductive event : Type :=
| HttpGet (url : string) (a : auth)
| HttpPost (url : string) (a : auth) (payload : json)
| ReadYaml (path : string)
| NewClient (params : list (string * json))
| CreateCompletion (request : list (string * json))
| Log (lvl : level) (template : string).

Record World : Type := {
  (** [os.environ] *)
  environ : gmap string string;
  (** [requests.request("GET", url, auth)], [raise_for_status], [.text] *)
  http_get : string -> auth -> result string;
  (** [requests.request("POST", url, auth, json)], [raise_for_status],
      [.json()]; the answer may depend on what was sent before *)
  http_post : list event -> string -> auth -> json -> result unit;
  (** [load_yaml(filepath)] *)
  load_yaml : string -> result json;
  (** [d.update(other)] when [other] is not a [dict] *)
  update_from_iterable : list (string * json) -> json -> result (list (string * json));
  (** [OpenAI], the parameters passed as keywords *)
  new_client : list (string * json) -> result unit;
  (** [len(encoding.encode(value))] with the encoding chosen for the model *)
  encode_len : option string -> string -> result Z;
  (** [client.chat.completions.create], the request passed as keywords, then
      the content of the first choice *)
  chat_completion : list event -> list (string * json) -> result (option string);
  (** [json_repair.loads(data)] *)
  json_repair_loads : option string -> result json;
  (** [str(l)] for a list of [str] *)
  str_of_list : list string -> string;
}.

(** A computation: it extends the trace and returns or raises. *)
Definition M (A : Type) : Type := list event -> result A * list event.

#[global] Instance M_ret : MRet M := fun A a tr => (Ok a, tr).

#[global] Instance M_bind : MBind M := fun A B f m tr =>
  match m tr with
  | (Ok a, tr') => f a tr'
  | (Raise e, tr') => (Raise e, tr')
  end.

Definition raise {A : Type} (e : exn) : M A := fun tr => (Raise e, tr).

Definition lift {A : Type} (r : result A) : M A := fun tr => (r, tr).

Definition emit (ev : event) : M unit := fun tr => (Ok tt, tr ++ [ev]).

Definition log (lvl : level) (template : string) : M unit := emit (Log lvl template).

(** ** Constants *)

Definition dq : string := String "034" EmptyString.
Definition nl : string := String "010" EmptyString.
(** The typographic quote U+201C of the source text, in UTF-8. *)
Definition ldq : string := String "226" (String "128" (String "156" EmptyString)).

Definition DEFAULT_SYSTEM_PROMPT_FOR_CODE_REVIEW : string :=
  nl +:+ dq +:+
  "Review a file of source code, and the git diff of a set of changes made to that file on a Pull Request. Follow a software development principles: SOLID, DRY, KISS, YAGNI. Skip compliments. Propose corrections." +:+
  dq +:+ nl +:+ dq +:+ "You are a helpful assistant designed to output JSON." +:+ dq +:+
  nl +:+ dq +:+
  "The response must be a JSON object containing summarization and suggestions where the key for each piece of feedback is the filename and line number in the file where the feedback must be left, and the value is the feedback itself as a string. " +:+
  dq +:+ nl +:+ dq +:+ "JSON must follow the next structure {" +:+ dq +:+ "summary" +:+
  ldq +:+ ": " +:+ dq +:+ "{pull request detailed description}" +:+ dq +:+ ", " +:+ dq +:+
  "suggestions" +:+ dq +:+ ": { " +:+ dq +:+ "{filename:line-number}" +:+ ldq +:+ ": " +:+
  ldq +:+ "{feedback relating to the referenced line in the file.}" +:+ ldq +:+ " } }" +:+
  dq +:+ nl.

Definition BITBUCKET_API_BASE_URL : string := "https://api.bitbucket.org/2.0".

(** ** The pipe *)

(** The attributes [CodeReviewPipe.__init__] sets. *)
Record CodeReviewPipe : Type := {
  auth_method_bitbucket : auth;
  workspace : option string;
  repo_slug : option string;
  open_api_key : option string;
  base_url : option string;
  organization : option string;
  model : option string;
  user_message_content : option string;
  files_to_review : option string;
  completion_parameters_payload_file : option string;
  chatgpt_parameters_payload_file : option string;
}.

Section Pipe.

Variable W : World.

Definition getenv (name : string) : option string := environ W !! name.

(** [CodeReviewPipe.resolve_auth()] *)
Definition resolve_auth : result auth :=
  let username := getenv "BITBUCKET_USERNAME" in
  let password := getenv "BITBUCKET_APP_PASSWORD" in
  let token := getenv "BITBUCKET_ACCESS_TOKEN" in
  match username, password, token with
  | Some (String _ _ as u), Some (String _ _ as p), _ => Ok (HTTPBasicAuth u p)
  | _, _, Some (String _ _ as t) => Ok (TokenAuth t)
  | _, _, _ => Raise ValueError
  end.

(** The attributes [CodeReviewPipe.__init__()] sets once the authentication
    is resolved. *)
Definition attributes (a : auth) : CodeReviewPipe :=
  {| auth_method_bitbucket := a;
     workspace := getenv "BITBUCKET_WORKSPACE";
     repo_slug := getenv "BITBUCKET_REPO_SLUG";
     open_api_key := getenv "OPENAI_API_KEY";
     base_url := getenv "OPENAI_BASE_URL";
     organization := getenv "ORGANIZATION";
     model := getenv "MODEL";
     user_message_content := getenv "MESSAGE";
     files_to_review := getenv "FILES_TO_REVIEW";
     completion_parameters_payload_file := getenv "CHATGPT_COMPLETION_FILEPATH";
     chatgpt_parameters_payload_file := getenv "CHATGPT_CLIENT_FILEPATH" |}.

(** [CodeReviewPipe.__init__()] *)
Definition init : M CodeReviewPipe :=
  a ← lift resolve_auth;
  mret (attributes a).

Variable self : CodeReviewPipe.

Definition pull_request_url (pull_request_id : string) (leaf : string) : string :=
  BITBUCKET_API_BASE_URL +:+ "/repositories/" +:+ Py.str_of_env (workspace self) +:+ "/"
    +:+ Py.str_of_env (repo_slug self) +:+ "/pullrequests/" +:+ pull_request_id
    +:+ "/" +:+ leaf.

(** [BitbucketApiService.get_pull_request_diffs(pull_request_id)] *)
Definition get_pull_request_diffs (pull_request_id : string) : M string :=
  let url_diff := pull_request_url pull_request_id "diff" in
  emit (HttpGet url_diff (auth_method_bitbucket self));;
  lift (http_get W url_diff (auth_method_bitbucket self)).

(** [BitbucketApiService.add_comment(pull_request_id, payload)] *)
Definition add_comment (pull_request_id : string) (payload : json) : M unit :=
  let url_comment := pull_request_url pull_request_id "comments" in
  fun tr =>
    (http_post W tr url_comment (auth_method_bitbucket self) payload,
     tr ++ [HttpPost url_comment (auth_method_bitbucket self) payload]).

(** The allowlist [get_diffs_to_review] reads from [FILES_TO_REVIEW]: the
    pieces between commas when the variable is set and not empty (and the
    list of pieces is not empty, which it never is). *)
Definition allowlist : result (list string) :=
  match files_to_review self with
  | Some (String _ _ as s) =>
      match PyStr.split s "," with
      | Ok ((_ :: _) as l) => Ok l
      | Ok [] => Ok []
      | Raise e => Raise e
      end
  | _ => Ok []
  end.

(** [CodeReviewPipe.get_diffs_to_review(pull_request_id)] *)
Definition get_diffs_to_review (pull_request_id : string) : M (list string) :=
  diffs_text ← get_pull_request_diffs pull_request_id;
  files_to_review ← lift allowlist;
  lift (fetch_diffs diffs_text files_to_review DIFF_DELIMITER).

(** [AiService.num_tokens_from_messages(messages, model)] *)
Fixpoint tokens_of_message (message : list (string * string)) (num_tokens : Z) : result Z :=
  match message with
  | [] => Ok num_tokens
  | (key, value) :: message' =>
      match encode_len W (model self) value with
      | Raise e => Raise e
      | Ok n =>
          let num_tokens := (num_tokens + n)%Z in
          let num_tokens := if String.eqb key "name" then (num_tokens + -1)%Z else num_tokens in
          tokens_of_message message' num_tokens
      end
  end.

Fixpoint tokens_of_messages (messages : list (list (string * string))) (num_tokens : Z)
  : result Z :=
  match messages with
  | [] => Ok num_tokens
  | message :: messages' =>
      match tokens_of_message message (num_tokens + 4)%Z with
      | Raise e => Raise e
      | Ok num_tokens => tokens_of_messages messages' num_tokens
      end
  end.

Definition num_tokens_from_messages (messages : list (list (string * string))) : result Z :=
  match tokens_of_messages messages 0%Z with
  | Raise e => Raise e
  | Ok num_tokens => Ok (num_tokens + 2)%Z
  end.

Definition json_of_messages (messages : list (list (string * string))) : json :=
  JArr (map (fun message => JObj (map (fun kv => (fst kv, JStr (snd kv))) message)) messages).

(** Merge the parameters of a YAML file into [params]: [load_yaml], the log
    record [template], [dict.update]. *)
Definition with_yaml (file : option string) (template : string)
    (params : list (string * json)) : M (list (string * json)) :=
  match file with
  | Some (String _ _ as filepath) =>
      emit (ReadYaml filepath);;
      users ← lift (load_yaml W filepath);
      log INFO template;;
      match users with
      | JObj other => mret (PyDict.update params other)
      | other => lift (update_from_iterable W params other)
      end
  | _ => mret params
  end.

(** [AiService(...)], called with [chatgpt_parameters] as keywords; a
    keyword [self] collides with the receiver. *)
Definition new_ai_service (chatgpt_parameters : list (string * json)) : M unit :=
  if PyDict.has_key "self" chatgpt_parameters then raise TypeError
  else
    emit (NewClient chatgpt_parameters);;
    lift (new_client W chatgpt_parameters).

(** [AiService.create_completion], called with [completion_params] as
    keywords, then [completion.choices[0].message.content]; a keyword
    [response_format] collides with the one the method passes itself, a
    keyword [self] with the receiver. *)
Definition create_completion (completion_params : list (string * json))
  : M (option string) :=
  if PyDict.has_key "response_format" completion_params
     || PyDict.has_key "self" completion_params
  then raise TypeError
  else
    let request :=
      ("response_format", JObj [("type", JStr "json_object")]) :: completion_params in
    fun tr => (chat_completion W tr request, tr ++ [CreateCompletion request]).

(** The messages [get_code_review] assembles. *)
Definition review_messages (diffs_to_review : list string)
  : list (list (string * string)) :=
  [[("role", "system"); ("content", DEFAULT_SYSTEM_PROMPT_FOR_CODE_REVIEW)]]
  ++ (match user_message_content self with
      | Some (String _ _ as text) => [[("role", "system"); ("content", text)]]
      | _ => []
      end)
  ++ [[("role", "user"); ("content", str_of_list W diffs_to_review)]].

(** [CodeReviewPipe.get_code_review(diffs_to_review)]; [JNull] is the
    [None] it returns when the prompt is over the token limit. *)
Definition get_code_review (diffs_to_review : list string) : M json :=
  let messages := review_messages diffs_to_review in
  num_tokens ← lift (num_tokens_from_messages messages);
  chat_gpt_token_limit ← lift (Py.int (default "0" (getenv "CHATGPT_PROMPT_MAX_TOKENS")));
  if negb (chat_gpt_token_limit =? 0)%Z && (chat_gpt_token_limit <? num_tokens)%Z then
    log WARNING "The number of tokens is ~{num_tokens} that more then allowed CHATGPT_PROMPT_MAX_TOKENS {chat_gpt_token_limit} tokens";;
    log INFO "Pipe is stopped.";;
    mret JNull
  else
    log INFO "ChatGPT configuration: model: {self.model}";;
    completion_params ←
      with_yaml (completion_parameters_payload_file self)
        "ChatGPT configuration: completion parameters: {users_completion_params}"
        [("model", Py.of_env (model self)); ("messages", json_of_messages messages)];
    log INFO "ChatGPT configuration: messages: {messages}";;
    log INFO "Processing ChatGPT...";;
    raw_suggestions ← create_completion completion_params;
    log DEBUG "{completion}";;
    log INFO "Processing ChatGPT takes: {round(end_time - start_time)} seconds";;
    log INFO "ChatGPT completion tokens: {completion.usage}";;
    log DEBUG "{raw_suggestions}";;
    suggestions ← lift (json_repair_loads W raw_suggestions);
    log DEBUG "{suggestions}";;
    mret suggestions.

(** [re.match(pattern_filename_line, filename_line).groups()] *)
Definition match_filename_line (filename_line : string) : option (string * string) :=
  match Re.re_match pattern_filename_line filename_line with
  | Some [filename; line] => Some (filename, line)
  | _ => None
  end.

Definition inline_payload (filename : string) (line : Z) (content : json) : json :=
  JObj [("inline", JObj [("to", JInt line); ("path", JStr filename)]);
        ("content", JObj [("raw", content)])].

(** The loop of [add_comments] over [data.items()]. *)
Fixpoint add_comments_loop (pull_request_id : string) (items : list (string * json))
    (files_with_comments : list string) (added_suggestions_counter : Z)
  : M (list string * Z) :=
  match items with
  | [] => mret (files_with_comments, added_suggestions_counter)
  | (filename_line, content) :: items' =>
      match match_filename_line filename_line with
      | Some (filename, line) =>
          n ← lift (Py.len content);
          match n with
          | O => add_comments_loop pull_request_id items' files_with_comments
                   added_suggestions_counter
          | S _ =>
              to ← lift (Py.int line);
              add_comment pull_request_id (inline_payload filename to content);;
              add_comments_loop pull_request_id items' (files_with_comments ++ [filename])
                (added_suggestions_counter + 1)%Z
          end
      | None => add_comments_loop pull_request_id items' files_with_comments
                  added_suggestions_counter
      end
  end.

(** [CodeReviewPipe.add_comments(pull_request_id, data)] *)
Definition add_comments (pull_request_id : string) (data : json) : M (gset string * Z) :=
  items ← lift (Py.items data);
  r ← add_comments_loop pull_request_id items [] 0%Z;
  mret (list_to_set (fst r), snd r).

(** [CodeReviewPipe.add_summary(pull_request_id, summary)] *)
Definition add_summary (pull_request_id : string) (summary : json) : M unit :=
  add_comment pull_request_id (JObj [("content", JObj [("raw", summary)])]).

(** [CodeReviewPipe.run()] *)
Definition run : M unit :=
  log INFO "Executing the pipe...";;
  match getenv "BITBUCKET_PR_ID" with
  | None => raise EnvironmentError
  | Some pull_request_id =>
      diffs_to_review ← get_diffs_to_review pull_request_id;
      log DEBUG "{diffs_to_review}";;
      match diffs_to_review with
      | [] =>
          log WARNING "No files for codereview. Check configuration in FILES_TO_REVIEW: {self.files_to_review}"
      | _ :: _ =>
          let files_with_diffs := get_files_with_diffs diffs_to_review in
          log INFO "Files with diffs count {len(files_with_diffs)}: {set(files_with_diffs)}";;
          chatgpt_parameters ←
            with_yaml (chatgpt_parameters_payload_file self)
              "ChatGPT configuration: client parameters: {users_chatgpt_parameters}"
              [("base_url", Py.of_env (base_url self));
               ("api_key", Py.of_env (open_api_key self));
               ("organization", Py.of_env (organization self))];
          new_ai_service chatgpt_parameters;;
          code_review ← get_code_review diffs_to_review;
          summary ← lift (Py.get code_review "summary");
          suggestions ← lift (Py.get code_review "suggestions");
          (if Py.truthy summary then add_summary pull_request_id summary else mret tt);;
          r ← add_comments pull_request_id suggestions;
          log INFO "ChatGPT suggestions count: {added_suggestions_counter}";;
          log INFO "Commented files count {len(files_with_comments)}: {files_with_comments}";;
          log INFO "Successfully added the comments provided by ChatGPT to the pull request: {ui_pull_request_url}"
      end
  end.

End Pipe.

(** The script: [pipe = CodeReviewPipe(); pipe.run()], from an empty trace. *)
Definition main (W : World) : result unit * list event :=
  (pipe ← init W; run W pipe) [].

(** * Reference statements and sample data *)

(** A chunk with the leading delimiter taken off. *)
Definition body (delimiter chunk : string) : string :=
  default chunk (PyStr.strip_prefix delimiter chunk).

(** The splitter as the specification words it: as many chunks as the
    delimiter occurs, each starting with the delimiter, the bodies adding up
    to the diff text. *)
Definition splitter_contract (diffs delimiter : string) : Prop :=
  exists chunks,
    fetch_diffs diffs [] delimiter = Ok chunks /\
    length chunks = PyStr.count diffs delimiter /\
    Forall (fun chunk => PyStr.startswith chunk delimiter = true) chunks /\
    PyStr.concat (map (body delimiter) chunks) = diffs.

(** A diff of one file, and a diff of two. *)
Definition diff_of_x : string :=
  "diff --git a/x.py b/x.py" +:+ nl +:+ "+print(1)" +:+ nl.

Definition diff_of_a_b : string :=
  "diff --git a/a.py b/a.py" +:+ nl +:+ "+import os" +:+ nl +:+
  "diff --git a/b.py b/b.py" +:+ nl +:+ "-import re" +:+ nl.

(** How many entries of the allowlist the text after the delimiter starts
    with. *)
Definition matching_entries (filenames : list string) (diff : string) : nat :=
  length (List.filter (fun filename => PyStr.startswith diff filename) filenames).

(** Every character of [s] is in the class [k]. *)
Fixpoint all_accept (k : Re.cclass) (s : string) : bool :=
  match s with
  | EmptyString => true
  | String c s' => Re.accepts k c && all_accept k s'
  end.

Definition starts_with_digit (s : string) : bool :=
  match s with
  | String c _ => Re.is_digit c
  | EmptyString => false
  end.

(** The continuation of the last group of a pattern. *)
Definition done : string -> option (list string) := Re.match_here [].

(** The pattern after the first group of [pattern_filename_line]. *)
Definition colon_digits : string -> option (list string) :=
  Re.match_here [Re.One (Re.Lit ":"); Re.CapPlus Re.Digit].

(** The pattern after the group of [pattern_filename]. *)
Definition space_b_slash : string -> option (list string) :=
  Re.match_here [Re.One (Re.Lit " "); Re.One (Re.Lit "b"); Re.One (Re.Lit "/")].

(** The extractor as the specification words it: on a header
    [<delimiter><relative-path-a> b/<relative-path-b>] the post-change path
    comes out. *)
Definition extractor_contract (path_a path_b rest : string) : Prop :=
  search_filename (DIFF_DELIMITER +:+ path_a +:+ " b/" +:+ path_b +:+ rest) = Some path_b.

(** The location-key format as the specification words it: the whole key is
    a path, a colon and one or more digits. *)
Definition location_key_format (key : string) : Prop :=
  exists path line,
    key = path +:+ ":" +:+ line /\ line <> EmptyString /\ all_accept Re.Digit line = true.

(** Calls that leave the process: the diff source, the comment sink, the
    completion service. *)
Definition is_network (ev : event) : bool :=
  match ev with
  | HttpGet _ _ | HttpPost _ _ _ | CreateCompletion _ => true
  | _ => false
  end.

Definition is_completion (ev : event) : bool :=
  match ev with
  | CreateCompletion _ => true
  | _ => false
  end.

Definition is_post (ev : event) : bool :=
  match ev with
  | HttpPost _ _ _ => true
  | _ => false
  end.

(** The path of an inline comment sent to the comment sink. *)
Definition inline_path (ev : event) : option string :=
  match ev with
  | HttpPost _ _ (JObj (("inline", JObj [("to", JInt _); ("path", JStr path)]) :: _)) =>
      Some path
  | _ => None
  end.

(** The configuration error of the specification: the run raises before any
    call leaves the process. *)
Definition fails_before_network (W : World) : Prop :=
  exists e, fst (main W) = Raise e /\ forallb (fun ev => negb (is_network ev)) (snd (main W)) = true.

(** The early-exit skip of the specification: the run ends without an
    exception, the completion service was not called, nothing was posted and
    a warning was logged. *)
Definition skips_review (W : World) : Prop :=
  fst (main W) = Ok tt /\
  forallb (fun ev => negb (is_completion ev) && negb (is_post ev)) (snd (main W)) = true /\
  exists template, In (Log WARNING template) (snd (main W)).

(** Neither authentication scheme is configured. *)
Definition auth_missing (W : World) : bool :=
  negb (Py.env_truthy (getenv W "BITBUCKET_USERNAME")
        && Py.env_truthy (getenv W "BITBUCKET_APP_PASSWORD"))
  && negb (Py.env_truthy (getenv W "BITBUCKET_ACCESS_TOKEN")).

(** A configured environment. *)
Definition sample_env : list (string * string) :=
  [("BITBUCKET_ACCESS_TOKEN", "secret"); ("BITBUCKET_WORKSPACE", "acme");
   ("BITBUCKET_REPO_SLUG", "shop"); ("BITBUCKET_PR_ID", "7"); ("MODEL", "gpt-4o")].

(** A world in which every collaborator answers: the diff source with
    [diff], the completion service with a text that parses to [reply]; a
    role costs one token and any other text [content_tokens]. *)
Definition sample_world (env : list (string * string)) (diff : result string)
    (content_tokens : Z) (reply : json) : World :=
  {| environ := list_to_map env;
     http_get := fun _ _ => diff;
     http_post := fun _ _ _ _ => Ok tt;
     load_yaml := fun _ => Raise FileNotFoundError;
     update_from_iterable := fun _ _ => Raise TypeError;
     new_client := fun _ => Ok tt;
     encode_len := fun _ text =>
       Ok (if String.eqb text "system" || String.eqb text "user" then 1 else content_tokens)%Z;
     chat_completion := fun _ _ => Ok (Some "{}");
     json_repair_loads := fun _ => Ok reply;
     str_of_list := PyStr.concat |}.

Definition sample_pipe : CodeReviewPipe :=
  {| auth_method_bitbucket := TokenAuth "secret";
     workspace := Some "acme";
     repo_slug := Some "shop";
     open_api_key := None;
     base_url := None;
     organization := None;
     model := Some "gpt-4o";
     user_message_content := None;
     files_to_review := None;
     completion_parameters_payload_file := None;
     chatgpt_parameters_payload_file := None |}.

Definition review_m_py : json :=
  JObj [("summary", JStr "Looks fine overall.");
        ("suggestions", JObj [("m.py:10", JStr "Rename variable.")])].

(** The configuration contract as the specification words it: a missing
    authentication, workspace, repository slug or pull-request identifier
    stops the run before any call leaves the process. *)
Definition configuration_contract (W : World) : Prop :=
  auth_missing W = true \/ getenv W "BITBUCKET_WORKSPACE" = None \/
  getenv W "BITBUCKET_REPO_SLUG" = None \/ getenv W "BITBUCKET_PR_ID" = None ->
  fails_before_network W.

(** A world with a token and a pull request, no workspace and no slug; the
    diff source refuses the request. *)
Definition world_without_target : World :=
  sample_world [("BITBUCKET_ACCESS_TOKEN", "secret"); ("BITBUCKET_PR_ID", "7")]
    (Raise HTTPError) 10 review_m_py.

(** A world with a token and nothing else. *)
Definition world_without_pr : World :=
  sample_world [("BITBUCKET_ACCESS_TOKEN", "secret")] (Ok diff_of_a_b) 10 review_m_py.

(** The empty-diff contract as the specification words it. *)
Definition empty_diff_contract (filenames : list string) : Prop :=
  fetch_diffs EmptyString filenames DIFF_DELIMITER = Ok [].

(** A world whose diff source returns [diff] and whose allowlist is
    [files]. *)
Definition world_with_allowlist (files diff : string) : World :=
  sample_world (("FILES_TO_REVIEW", files) :: sample_env) (Ok diff) 10 review_m_py.

(** The request [add_comments] sends for one inline comment. *)
Definition inline_comment (self : CodeReviewPipe) (pull_request_id : string)
    (c : string * Z * json) : event :=
  HttpPost (pull_request_url self pull_request_id "comments") (auth_method_bitbucket self)
    (inline_payload (fst (fst c)) (snd (fst c)) (snd c)).

(** The skipping of malformed keys as the specification words it: an entry
    whose key is not in the location-key format publishes nothing. *)
Definition skips_malformed_key (key : string) (content : json) : Prop :=
  ~ location_key_format key ->
  forall W self pull_request_id tr,
    add_comments W self pull_request_id (JObj [(key, content)]) tr = (Ok (∅, 0%Z), tr).

(** A world whose prompt counts 5000 tokens against a ceiling of 3000. *)
Definition world_over_token_limit : World :=
  sample_world (("CHATGPT_PROMPT_MAX_TOKENS", "3000") :: sample_env) (Ok diff_of_a_b) 2494
    review_m_py.

(** A world whose completion parses to [reply]. *)
Definition world_with_reply (reply : json) : World :=
  sample_world sample_env (Ok diff_of_a_b) 10 reply.

(** The events of a run up to the call of the completion service, in the
    sample worlds. *)
Definition sample_prefix : list event :=
  [Log INFO "Executing the pipe...";
   HttpGet "https://api.bitbucket.org/2.0/repositories/acme/shop/pullrequests/7/diff"
     (TokenAuth "secret");
   Log DEBUG "{diffs_to_review}";
   Log INFO "Files with diffs count {len(files_with_diffs)}: {set(files_with_diffs)}";
   NewClient [("base_url", JNull); ("api_key", JNull); ("organization", JNull)]].

(** The events of a sample run from the call of the completion service to
    the parsed reply. *)
Definition sample_completion : list event :=
  [Log INFO "ChatGPT configuration: model: {self.model}";
   Log INFO "ChatGPT configuration: messages: {messages}";
   Log INFO "Processing ChatGPT...";
   CreateCompletion
     [("response_format", JObj [("type", JStr "json_object")]);
      ("model", JStr "gpt-4o");
      ("messages",
       json_of_messages
         (review_messages (world_with_reply JNull) sample_pipe
            [DIFF_DELIMITER;
             "diff --git a/a.py b/a.py" +:+ nl +:+ "+import os" +:+ nl;
             "diff --git a/b.py b/b.py" +:+ nl +:+ "-import re" +:+ nl]))];
   Log DEBUG "{completion}";
   Log INFO "Processing ChatGPT takes: {round(end_time - start_time)} seconds";
   Log INFO "ChatGPT completion tokens: {completion.usage}";
   Log DEBUG "{raw_suggestions}";
   Log DEBUG "{suggestions}"].

Definition sample_closing : list event :=
  [Log INFO "ChatGPT suggestions count: {added_suggestions_counter}";
   Log INFO "Commented files count {len(files_with_comments)}: {files_with_comments}";
   Log INFO "Successfully added the comments provided by ChatGPT to the pull request: {ui_pull_request_url}"].

Definition summary_comment (self : CodeReviewPipe) (pull_request_id : string)
    (summary : json) : event :=
  HttpPost (pull_request_url self pull_request_id "comments") (auth_method_bitbucket self)
    (JObj [("content", JObj [("raw", summary)])]).

(** What [run] does with the value of [get_code_review]: its last lines. *)
Definition publish_review (W : World) (self : CodeReviewPipe) (pull_request_id : string)
    (code_review : json) : M unit :=
  summary ← lift (Py.get code_review "summary");
  suggestions ← lift (Py.get code_review "suggestions");
  (if Py.truthy summary then add_summary W self pull_request_id summary else mret tt);;
  r ← add_comments W self pull_request_id suggestions;
  log INFO "ChatGPT suggestions count: {added_suggestions_counter}";;
  log INFO "Commented files count {len(files_with_comments)}: {files_with_comments}";;
  log INFO "Successfully added the comments provided by ChatGPT to the pull request: {ui_pull_request_url}".

(** * Further reference definitions *)

(** [sub in s] *)
Definition contains (s sub : string) : bool :=
  match PyStr.cut sub s with
  | Some _ => true
  | None => false
  end.

(** No entry of the allowlist is a prefix of another one. *)
Fixpoint prefix_free (filenames : list string) : bool :=
  match filenames with
  | [] => true
  | f :: l =>
      forallb (fun g => negb (PyStr.startswith g f) && negb (PyStr.startswith f g)) l
      && prefix_free l
  end.

(** A piece passes the allowlist. *)
Definition allowed (filenames : list string) (diff : string) : bool :=
  existsb (fun filename => PyStr.startswith diff filename) filenames.

(** The values of the messages, in the order [num_tokens_from_messages]
    encodes them. *)
Definition message_values (messages : list (list (string * string))) : list string :=
  flat_map (map snd) messages.

(** How many keys of the messages are [name]. *)
Definition name_keys (messages : list (list (string * string))) : nat :=
  length (List.filter (fun kv => String.eqb (fst kv) "name") (List.concat messages)).

Definition sum_Z (l : list Z) : Z := fold_right Z.add 0%Z l.

(** The inline comment of a suggestions entry: none when the key does not
    match, when the feedback is empty or has no length, or when [int] does
    not take the line. *)
Definition comment_of_entry (entry : string * json) : option (string * Z * json) :=
  match match_filename_line (fst entry), Py.len (snd entry) with
  | Some (filename, line), Ok (S _) =>
      match Py.int line with
      | Ok to => Some (filename, to, snd entry)
      | Raise _ => None
      end
  | _, _ => None
  end.

(** The inline comments of a suggestions mapping, in its order. *)
Definition planned_comments (items : list (string * json)) : list (string * Z * json) :=
  omap comment_of_entry items.

(** The calls of a trace that leave the process, in order. *)
Definition network (tr : list event) : list event := List.filter is_network tr.



(** The text of a file section after the delimiter: the path before the
    change, [ b/], and what follows (the path after the change, the hunks). *)
Definition section_text (section : string * string) : string :=
  fst section +:+ " b/" +:+ snd section.

(** A diff text made of file sections, each led by the delimiter. *)
Definition diff_of_sections (sections : list (string * string)) : string :=
  PyStr.concat (map (fun section => DIFF_DELIMITER +:+ section_text section) sections).

(** A file section as git writes it: a path without line feed, ended by
    the first [ b/] of the section, and no delimiter inside the section. *)
Definition well_formed_section (section : string * string) : Prop :=
  PyStr.no_newline (fst section) = true /\
  PyStr.cut " b/" (section_text section) = Some (fst section, snd section) /\
  contains (section_text section) DIFF_DELIMITER = false.

(** Every line a key of the mapping is matched with has no more digits than
    [int] takes. *)
Definition lines_within_limit (items : list (string * json)) : bool :=
  forallb (fun kv =>
             match match_filename_line (fst kv) with
             | Some (_, line) => (String.length line <=? Py.int_max_str_digits)%nat
             | None => true
             end) items.

(** A world whose comment sink answers with [post], and a world whose
    [load_yaml] answers with [load]. *)
Definition with_http_post (W : World)
    (post : list event -> string -> auth -> json -> result unit) : World :=
  {| environ := environ W;
     http_get := http_get W;
     http_post := post;
     load_yaml := load_yaml W;
     update_from_iterable := update_from_iterable W;
     new_client := new_client W;
     encode_len := encode_len W;
     chat_completion := chat_completion W;
     json_repair_loads := json_repair_loads W;
     str_of_list := str_of_list W |}.

Definition with_load_yaml (W : World) (load : string -> result json) : World :=
  {| environ := environ W;
     http_get := http_get W;
     http_post := http_post W;
     load_yaml := load;
     update_from_iterable := update_from_iterable W;
     new_client := new_client W;
     encode_len := encode_len W;
     chat_completion := chat_completion W;
     json_repair_loads := json_repair_loads W;
     str_of_list := str_of_list W |}.

(** A world whose comment sink takes one comment and refuses the next
    ones. *)
Definition world_with_full_sink : World :=
  with_http_post (world_with_reply review_m_py)
    (fun tr _ _ _ => if existsb is_post tr then Raise HTTPError else Ok tt).

(** A world with the file [completion.yml], a mapping of two parameters. *)
Definition world_with_yaml : World :=
  with_load_yaml (world_with_reply review_m_py)
    (fun filepath =>
       if String.eqb filepath "completion.yml"
       then Ok (JObj [("temperature", JInt 0); ("model", JStr "gpt-4")])
       else Raise FileNotFoundError).

(** A key whose line has [n] + 1 digits. *)
Definition key_of_digits (n : nat) : string :=
  "a.py:1" +:+ PyStr.concat (repeat "0" n).

(** * Properties *)

(** ** Strings *)

Module PyStrFacts.
Import PyStr.

Lemma append_nil_r (s : string) : s +:+ EmptyString = s.
Proof. induction s as [|c s IH]; simpl; [reflexivity | now rewrite IH]. Qed.

Lemma append_assoc (a b c : string) : (a +:+ b) +:+ c = a +:+ (b +:+ c).
Proof. induction a as [|x a IH]; simpl; [reflexivity | now rewrite IH]. Qed.

Lemma append_length (a b : string) :
  String.length (a +:+ b) = String.length a + String.length b.
Proof. induction a as [|x a IH]; simpl; [reflexivity | now rewrite IH]. Qed.

Lemma append_inj_l (a b c : string) : a +:+ b = a +:+ c -> b = c.
Proof. induction a as [|x a IH]; simpl; intros H; [assumption | injection H; auto]. Qed.

Lemma strip_prefix_Some (p s r : string) : strip_prefix p s = Some r <-> s = p +:+ r.
Proof.
  revert s; induction p as [|a p IH]; intros s; simpl.
  - split; [now intros [= ->] | now intros ->].
  - destruct s as [|b s]; [split; discriminate|].
    destruct (Ascii.eqb_spec a b) as [->|Hne].
    + rewrite IH. split; [now intros -> | now intros [= ->]].
    + split; [discriminate | intros [= -> _]; now destruct Hne].
Qed.

Lemma strip_prefix_app (p r : string) : strip_prefix p (p +:+ r) = Some r.
Proof. now apply strip_prefix_Some. Qed.

Lemma startswith_strip (s p : string) :
  startswith s p = true <-> exists r, strip_prefix p s = Some r.
Proof.
  unfold startswith. revert s; induction p as [|a p IH]; intros s.
  - destruct s; simpl; split; eauto.
  - destruct s as [|b s]; [simpl; split; [discriminate | intros [r [=]]]|].
    change (String.prefix (String a p) (String b s))
      with (if Ascii.ascii_dec a b then String.prefix p s else false).
    simpl strip_prefix.
    destruct (Ascii.ascii_dec a b) as [->|Hne].
    + rewrite Ascii.eqb_refl. apply IH.
    + destruct (Ascii.eqb_spec a b); [contradiction|].
      split; [discriminate | intros [r [=]]].
Qed.

Lemma startswith_iff (s p : string) : startswith s p = true <-> exists r, s = p +:+ r.
Proof.
  rewrite startswith_strip. split; intros [r H]; exists r; now apply strip_prefix_Some.
Qed.

Lemma startswith_nil (s : string) : startswith s EmptyString = true.
Proof. apply startswith_iff. now exists s. Qed.

Lemma cut_Some (sep s a b : string) : cut sep s = Some (a, b) -> s = a +:+ sep +:+ b.
Proof.
  revert a; induction s as [|c s IH]; intros a; simpl.
  - destruct (strip_prefix sep EmptyString) eqn:E; [|discriminate].
    intros [= <- <-]. now apply strip_prefix_Some in E.
  - destruct (strip_prefix sep (String c s)) eqn:E.
    + intros [= <- <-]. now apply strip_prefix_Some in E.
    + destruct (cut sep s) as [[a' b']|] eqn:E'; [|discriminate].
      intros [= <- <-]. simpl. f_equal. now apply IH.
Qed.

Lemma cut_length (sep s a b : string) :
  cut sep s = Some (a, b) ->
  String.length s = String.length a + String.length sep + String.length b.
Proof. intros H%cut_Some. subst s. rewrite !append_length. lia. Qed.

(** The occurrence [cut] finds is the leftmost one. *)
Lemma cut_leftmost (sep s a b : string) :
  cut sep s = Some (a, b) ->
  forall u v, a = u +:+ v -> v <> EmptyString -> strip_prefix sep (v +:+ sep +:+ b) = None.
Proof.
  revert a; induction s as [|c s IH]; intros a; simpl.
  - destruct (strip_prefix sep EmptyString); [|discriminate].
    intros [= <- <-] u v Huv Hv. destruct u, v; simpl in Huv; congruence.
  - destruct (strip_prefix sep (String c s)) eqn:E.
    + intros [= <- <-] u v Huv Hv. destruct u, v; simpl in Huv; congruence.
    + destruct (cut sep s) as [[a' b']|] eqn:E'; [|discriminate].
      intros [= <- <-] u v Huv Hv. destruct u as [|x u]; simpl in Huv.
      * subst v. simpl. apply cut_Some in E'. now rewrite <- E'.
      * injection Huv as -> ->. now apply (IH _ eq_refl u v).
Qed.

Lemma cut_None (sep s : string) :
  cut sep s = None -> forall u v, s = u +:+ v -> strip_prefix sep v = None.
Proof.
  induction s as [|c s IH]; simpl.
  - destruct (strip_prefix sep EmptyString) eqn:E; [discriminate|].
    intros _ u v Huv. destruct u, v; simpl in Huv; try discriminate. assumption.
  - destruct (strip_prefix sep (String c s)) eqn:E; [discriminate|].
    destruct (cut sep s) as [[a' b']|] eqn:E'; [discriminate|].
    intros _ u v Huv. destruct u as [|x u]; simpl in Huv.
    + now subst v.
    + injection Huv as -> ->. now apply (IH eq_refl u v).
Qed.

(** More fuel than the length of the text changes nothing. *)
Lemma split_fuel_enough (sep s : string) (n m : nat) :
  sep <> EmptyString -> String.length s <= n -> String.length s <= m ->
  split_fuel n sep s = split_fuel m sep s.
Proof.
  intros Hsep. revert s m; induction n as [|n IH]; intros s m Hn Hm.
  - destruct s; [|simpl in Hn; lia]. destruct m; simpl; [reflexivity|].
    destruct sep; [congruence | reflexivity].
  - destruct m as [|m].
    + destruct s; [|simpl in Hm; lia]. simpl. destruct sep; [congruence | reflexivity].
    + simpl. destruct (cut sep s) as [[a b]|] eqn:E; [|reflexivity].
      f_equal. pose proof (cut_length _ _ _ _ E).
      assert (0 < String.length sep) by (destruct sep; [congruence | simpl; lia]).
      apply IH; lia.
Qed.

(** The equation [split] satisfies. *)
Lemma split_unfold (s sep : string) :
  sep <> EmptyString ->
  split s sep =
    match cut sep s with
    | None => Ok [s]
    | Some (a, b) =>
        match split b sep with
        | Ok l => Ok (a :: l)
        | Raise e => Raise e
        end
    end.
Proof.
  intros Hsep. unfold split. destruct sep as [|x sep]; [congruence|].
  destruct (cut (String x sep) s) as [[a b]|] eqn:E.
  - pose proof (cut_length _ _ _ _ E) as HL. simpl in HL.
    destruct (String.length s) as [|n] eqn:Hn; [lia|].
    simpl. rewrite E. do 2 f_equal. apply split_fuel_enough; [discriminate | lia | lia].
  - destruct (String.length s); simpl; [reflexivity | now rewrite E].
Qed.

Lemma split_fuel_nonempty (n : nat) (sep s : string) : split_fuel n sep s <> [].
Proof. destruct n; simpl; [discriminate|]. destruct (cut sep s) as [[? ?]|]; discriminate. Qed.

Lemma join_split_fuel (n : nat) (sep s : string) : join sep (split_fuel n sep s) = s.
Proof.
  revert s; induction n as [|n IH]; intros s; simpl; [reflexivity|].
  destruct (cut sep s) as [[a b]|] eqn:E; [|reflexivity].
  unfold join in *. simpl.
  destruct (split_fuel n sep b) eqn:El; [now apply split_fuel_nonempty in El|].
  rewrite <- El, IH. symmetry. now apply cut_Some.
Qed.

Lemma concat_map_split_fuel (n : nat) (sep s : string) :
  concat (map (fun diff => sep +:+ diff) (split_fuel n sep s)) = sep +:+ s.
Proof.
  revert s; induction n as [|n IH]; intros s; simpl.
  - now rewrite append_nil_r.
  - destruct (cut sep s) as [[a b]|] eqn:E; simpl.
    + unfold concat in IH. rewrite IH. apply cut_Some in E. subst s.
      now rewrite append_assoc.
    + now rewrite append_nil_r.
Qed.

Lemma length_split_fuel (n : nat) (sep s : string) :
  length (split_fuel n sep s) = S (count_fuel n sep s).
Proof.
  revert s; induction n as [|n IH]; intros s; simpl; [reflexivity|].
  destruct (cut sep s) as [[a b]|]; simpl; [now rewrite IH | reflexivity].
Qed.

End PyStrFacts.

(** ** The diff splitter *)

Module SplitterFacts.
Import PyStr PyStrFacts.

Lemma body_append (delimiter diff : string) : body delimiter (delimiter +:+ diff) = diff.
Proof. unfold body. now rewrite strip_prefix_app. Qed.

Lemma map_body (delimiter : string) (pieces : list string) :
  map (body delimiter) (map (fun diff => delimiter +:+ diff) pieces) = pieces.
Proof.
  induction pieces as [|d l IH]; simpl; [reflexivity|]. now rewrite body_append, IH.
Qed.

Lemma split_Ok (diffs delimiter : string) :
  delimiter <> EmptyString ->
  split diffs delimiter = Ok (split_fuel (String.length diffs) delimiter diffs).
Proof. intros H. unfold split. destruct delimiter; [congruence | reflexivity]. Qed.

Lemma positions_cut_None (sep s : string) : cut sep s = None -> positions sep s = 0.
Proof.
  induction s as [|c s IH]; simpl.
  - now destruct (strip_prefix sep EmptyString).
  - destruct (strip_prefix sep (String c s)); [discriminate|].
    destruct (cut sep s) as [[? ?]|]; [discriminate|]. intros _. now apply IH.
Qed.

Lemma positions_skip (sep a t : string) :
  (forall u v, a = u +:+ v -> v <> EmptyString -> strip_prefix sep (v +:+ t) = None) ->
  positions sep (a +:+ t) = positions sep t.
Proof.
  induction a as [|c a IH]; intros H; [reflexivity|].
  change (String c a +:+ t) with (String c (a +:+ t)).
  cbn [positions].
  change (String c (a +:+ t)) with (String c a +:+ t) at 1.
  rewrite (H EmptyString (String c a) eq_refl); [|discriminate].
  simpl. apply IH. intros u v -> Hv. now apply (H (String c u) v).
Qed.

(** The delimiter of the program cannot overlap itself. *)
Lemma positions_delimiter (b : string) :
  positions DIFF_DELIMITER (DIFF_DELIMITER +:+ b) = S (positions DIFF_DELIMITER b).
Proof. reflexivity. Qed.

Lemma count_fuel_positions (n : nat) (s : string) :
  String.length s <= n -> count_fuel n DIFF_DELIMITER s = positions DIFF_DELIMITER s.
Proof.
  revert s; induction n as [|n IH]; intros s Hn.
  - destruct s; [reflexivity | simpl in Hn; lia].
  - cbn [count_fuel]. destruct (cut DIFF_DELIMITER s) as [[a b]|] eqn:E.
    + pose proof (cut_length _ _ _ _ E) as HL.
      pose proof (cut_leftmost _ _ _ _ E) as Hleft.
      apply cut_Some in E. subst s.
      rewrite positions_skip by exact Hleft.
      rewrite positions_delimiter. f_equal. apply IH.
      change (String.length DIFF_DELIMITER) with 13 in HL. lia.
    + symmetry. now apply positions_cut_None.
Qed.

(** For the delimiter of the program, [str.count] is the number of
    positions at which the delimiter starts. *)
Lemma count_positions (diffs : string) :
  count diffs DIFF_DELIMITER = positions DIFF_DELIMITER diffs.
Proof. unfold count. now apply count_fuel_positions. Qed.

End SplitterFacts.

Import PyStr PyStrFacts SplitterFacts.

(** C2, as the specification states it, fails: a diff text with one
    occurrence of the delimiter is split into two chunks, and the bodies
    alone do not give the text back. *)
Lemma splitter_contract_fails : ~ splitter_contract diff_of_x DIFF_DELIMITER.
Proof.
  intros (chunks & Hf & Hlen & _). vm_compute in Hf. injection Hf as <-.
  vm_compute in Hlen. discriminate.
Qed.

(** C2 (amended): with no allowlist and a non-empty delimiter, a diff text
    in which the delimiter occurs N times is split into N + 1 chunks; every
    chunk starts with the delimiter; the bodies joined by the delimiter give
    the text back, and the chunks put end to end give the delimiter followed
    by the text. For the delimiter of the program N is the number of
    positions at which it starts. *)
Theorem fetch_diffs_chunks (diffs delimiter : string) :
  delimiter <> EmptyString ->
  exists chunks,
    fetch_diffs diffs [] delimiter = Ok chunks /\
    length chunks = S (count diffs delimiter) /\
    Forall (fun chunk => startswith chunk delimiter = true) chunks /\
    join delimiter (map (body delimiter) chunks) = diffs /\
    concat chunks = delimiter +:+ diffs /\
    count diffs DIFF_DELIMITER = positions DIFF_DELIMITER diffs.
Proof.
  intros Hd. unfold fetch_diffs. rewrite (split_Ok _ _ Hd).
  eexists; split; [reflexivity|]. repeat split.
  - rewrite length_map. apply length_split_fuel.
  - apply List.Forall_forall. intros c [d [<- _]]%in_map_iff.
    apply startswith_iff. now exists d.
  - rewrite map_body. apply join_split_fuel.
  - apply concat_map_split_fuel.
  - apply count_positions.
Qed.

Lemma fetch_diffs_chunks_witness :
  exists chunks,
    fetch_diffs diff_of_a_b [] DIFF_DELIMITER = Ok chunks /\
    length chunks = S (count diff_of_a_b DIFF_DELIMITER) /\
    Forall (fun chunk => startswith chunk DIFF_DELIMITER = true) chunks /\
    join DIFF_DELIMITER (map (body DIFF_DELIMITER) chunks) = diff_of_a_b /\
    concat chunks = DIFF_DELIMITER +:+ diff_of_a_b /\
    count diff_of_a_b DIFF_DELIMITER = positions DIFF_DELIMITER diff_of_a_b.
Proof. apply (fetch_diffs_chunks diff_of_a_b DIFF_DELIMITER). discriminate. Defined.

Lemma in_filter_chunks (delimiter diff chunk : string) (filenames : list string) :
  In chunk (flat_map (fun filename =>
              if startswith diff filename then [delimiter +:+ diff] else []) filenames) <->
  chunk = delimiter +:+ diff /\ exists filename, In filename filenames /\
                                              startswith diff filename = true.
Proof.
  rewrite in_flat_map. split.
  - intros (f & Hf & Hin). destruct (startswith diff f) eqn:E; simpl in Hin; [|tauto].
    destruct Hin as [<-|[]]. eauto.
  - intros (-> & f & Hf & E). exists f. split; [assumption|]. rewrite E. now left.
Qed.

(** C8: with a non-empty allowlist the splitter keeps exactly the chunks
    whose text, right after the delimiter, starts with an allowlisted
    filename; with an empty allowlist every chunk passes. The allowlist
    [a.py] on a diff of [a.py] and [b.py] leaves the chunk of [a.py]. *)
Theorem fetch_diffs_allowlist (diffs delimiter : string) (filenames : list string) :
  delimiter <> EmptyString ->
  exists pieces,
    split diffs delimiter = Ok pieces /\
    fetch_diffs diffs [] delimiter = Ok (map (fun diff => delimiter +:+ diff) pieces) /\
    (filenames <> [] ->
     exists chunks,
       fetch_diffs diffs filenames delimiter = Ok chunks /\
       forall chunk,
         In chunk chunks <->
         exists diff filename rest,
           In diff pieces /\ In filename filenames /\
           diff = filename +:+ rest /\ chunk = delimiter +:+ diff) /\
    fetch_diffs diff_of_a_b ["a.py"] DIFF_DELIMITER =
      Ok ["diff --git a/a.py b/a.py" +:+ nl +:+ "+import os" +:+ nl].
Proof.
  intros Hd. unfold fetch_diffs at 1 2. rewrite (split_Ok _ _ Hd).
  eexists; split; [reflexivity|]. split; [reflexivity|]. split; [|reflexivity].
  intros Hne. destruct filenames as [|f0 fs]; [congruence|].
  eexists; split; [reflexivity|]. intros chunk. rewrite in_flat_map. split.
  - intros (d & Hd' & Hin). apply in_filter_chunks in Hin as (-> & f & Hf & E).
    apply startswith_iff in E as [r ->]. now exists (f +:+ r), f, r.
  - intros (d & f & r & Hd' & Hf & -> & ->). exists (f +:+ r). split; [assumption|].
    apply in_filter_chunks. split; [reflexivity|]. exists f. split; [assumption|].
    apply startswith_iff. now exists r.
Qed.

Lemma fetch_diffs_allowlist_witness :
  exists pieces,
    split diff_of_a_b DIFF_DELIMITER = Ok pieces /\
    fetch_diffs diff_of_a_b [] DIFF_DELIMITER =
      Ok (map (fun diff => DIFF_DELIMITER +:+ diff) pieces) /\
    (["b.py"; "a.py"] <> [] ->
     exists chunks,
       fetch_diffs diff_of_a_b ["b.py"; "a.py"] DIFF_DELIMITER = Ok chunks /\
       forall chunk,
         In chunk chunks <->
         exists diff filename rest,
           In diff pieces /\ In filename ["b.py"; "a.py"] /\
           diff = filename +:+ rest /\ chunk = DIFF_DELIMITER +:+ diff) /\
    fetch_diffs diff_of_a_b ["a.py"] DIFF_DELIMITER =
      Ok ["diff --git a/a.py b/a.py" +:+ nl +:+ "+import os" +:+ nl].
Proof. apply (fetch_diffs_allowlist diff_of_a_b DIFF_DELIMITER). discriminate. Defined.

Lemma snoc_eq_app (x y b : string) (c : ascii) :
  x +:+ String c EmptyString = y +:+ b ->
  b = EmptyString \/ exists b', b = b' +:+ String c EmptyString.
Proof.
  revert x; induction y as [|d y IH]; intros x H.
  - right. exists x. simpl in H. now rewrite <- H.
  - destruct x as [|e x]; simpl in H.
    + injection H as _ H. destruct y, b; simpl in H; try discriminate. now left.
    + injection H as _ H. now apply (IH x).
Qed.

(** A text that ends with a comma splits into pieces with an empty one. *)
Lemma split_trailing_comma (n : nat) (s : string) :
  String.length s < n -> In EmptyString (split_fuel n "," (s +:+ ",")).
Proof.
  revert s; induction n as [|n IH]; intros s Hn; [lia|].
  cbn [split_fuel]. destruct (cut "," (s +:+ ",")) as [[a b]|] eqn:E.
  - pose proof (cut_length _ _ _ _ E) as HL. rewrite append_length in HL. simpl in HL.
    apply cut_Some in E. destruct (snoc_eq_app s (a +:+ ",") b "," ) as [->|[b' ->]].
    + now rewrite append_assoc.
    + right. destruct n; simpl; auto.
    + right. apply IH. rewrite append_length in HL. simpl in HL. lia.
  - pose proof (cut_None _ _ E s "," eq_refl) as H. discriminate H.
Qed.

Lemma copies_per_piece (delimiter diff : string) (filenames : list string) :
  flat_map (fun filename =>
    if startswith diff filename then [delimiter +:+ diff] else []) filenames =
  repeat (delimiter +:+ diff) (matching_entries filenames diff).
Proof.
  unfold matching_entries. induction filenames as [|f fs IH]; simpl; [reflexivity|].
  destruct (startswith diff f); simpl; now rewrite IH.
Qed.

Lemma count_occ_copies (delimiter diff : string) (k : string -> nat) (pieces : list string) :
  count_occ string_dec
    (flat_map (fun d => repeat (delimiter +:+ d) (k d)) pieces) (delimiter +:+ diff) =
  count_occ string_dec pieces diff * k diff.
Proof.
  induction pieces as [|p ps IH]; [reflexivity|].
  cbn [flat_map]. rewrite count_occ_app, IH. cbn [count_occ].
  destruct (string_dec p diff) as [->|Hne].
  - rewrite count_occ_repeat_eq by reflexivity. lia.
  - rewrite count_occ_repeat_neq; [lia|]. intros H. apply append_inj_l in H. congruence.
Qed.

(** C10: with a non-empty allowlist the splitter emits a chunk once for each
    allowlist entry its text starts with, so a chunk with k such entries
    appears k times; an empty entry is a prefix of every text, so every chunk
    passes; and a [FILES_TO_REVIEW] that ends with a comma has an empty
    entry. *)
Theorem fetch_diffs_copies (self : CodeReviewPipe) (diffs delimiter : string)
    (filenames : list string) :
  delimiter <> EmptyString -> filenames <> [] ->
  exists pieces chunks,
    split diffs delimiter = Ok pieces /\
    fetch_diffs diffs filenames delimiter = Ok chunks /\
    chunks = flat_map (fun diff =>
               repeat (delimiter +:+ diff) (matching_entries filenames diff)) pieces /\
    (forall diff,
       count_occ string_dec chunks (delimiter +:+ diff) =
       count_occ string_dec pieces diff * matching_entries filenames diff) /\
    (In EmptyString filenames ->
     forall diff, In diff pieces -> In (delimiter +:+ diff) chunks) /\
    (forall s, files_to_review self = Some (s +:+ ",") ->
     exists l, allowlist self = Ok l /\ In EmptyString l).
Proof.
  intros Hd Hne. unfold fetch_diffs. rewrite (split_Ok _ _ Hd).
  destruct filenames as [|f0 fs]; [congruence|].
  set (filenames := f0 :: fs) in *.
  set (pieces := split_fuel (String.length diffs) delimiter diffs).
  assert (Heq : flat_map (fun diff =>
                  flat_map (fun filename =>
                    if startswith diff filename then [delimiter +:+ diff] else [])
                    filenames) pieces =
                flat_map (fun diff =>
                  repeat (delimiter +:+ diff) (matching_entries filenames diff)) pieces).
  { apply flat_map_ext. intros d. apply copies_per_piece. }
  exists pieces. eexists. split; [reflexivity|]. split; [reflexivity|].
  split; [exact Heq|]. rewrite Heq. split; [|split].
  - intros diff. apply count_occ_copies.
  - intros Hin diff Hdiff. apply in_flat_map. exists diff. split; [assumption|].
    unfold matching_entries.
    destruct (List.filter (fun filename => startswith diff filename) filenames) eqn:E.
    + assert (H : In EmptyString (List.filter (fun filename => startswith diff filename)
                                    filenames)).
      { apply filter_In. split; [assumption | apply startswith_nil]. }
      rewrite E in H. destruct H.
    + now left.
  - intros s Hs. unfold allowlist. rewrite Hs.
    assert (Hsplit : split (s +:+ ",") "," =
                     Ok (split_fuel (String.length (s +:+ ",")) "," (s +:+ ","))) by reflexivity.
    assert (Hin : In EmptyString (split_fuel (String.length (s +:+ ",")) "," (s +:+ ","))).
    { apply split_trailing_comma. rewrite append_length. simpl. lia. }
    destruct (s +:+ ",") as [|c t] eqn:Es; [destruct s; discriminate|].
    rewrite Hsplit.
    destruct (split_fuel (String.length (String c t)) "," (String c t)) eqn:El;
      [destruct Hin|]. eexists; split; [reflexivity | assumption].
Qed.

Lemma fetch_diffs_copies_witness :
  exists pieces chunks,
    split diff_of_a_b DIFF_DELIMITER = Ok pieces /\
    fetch_diffs diff_of_a_b ["a.py"; ""] DIFF_DELIMITER = Ok chunks /\
    chunks = flat_map (fun diff =>
               repeat (DIFF_DELIMITER +:+ diff) (matching_entries ["a.py"; ""] diff)) pieces /\
    (forall diff,
       count_occ string_dec chunks (DIFF_DELIMITER +:+ diff) =
       count_occ string_dec pieces diff * matching_entries ["a.py"; ""] diff) /\
    (In EmptyString ["a.py"; ""] ->
     forall diff, In diff pieces -> In (DIFF_DELIMITER +:+ diff) chunks) /\
    (forall s, files_to_review sample_pipe = Some (s +:+ ",") ->
     exists l, allowlist sample_pipe = Ok l /\ In EmptyString l).
Proof.
  apply (fetch_diffs_copies sample_pipe diff_of_a_b DIFF_DELIMITER ["a.py"; ""]);
    discriminate.
Defined.

(** ** Regular expressions *)

Module ReFacts.
Import Re.

Lemma all_accept_dot (s : string) : all_accept Dot s = no_newline s.
Proof. induction s as [|c s IH]; simpl; [reflexivity | now rewrite IH]. Qed.

Lemma all_accept_app (k : cclass) (a b : string) :
  all_accept k (a +:+ b) = all_accept k a && all_accept k b.
Proof.
  induction a as [|c a IH]; simpl; [reflexivity|]. now rewrite IH, andb_assoc.
Qed.

(** When [k+] fails, the continuation fails after every non-empty run of
    [k] characters. *)
Lemma greedy_plus_None (k : cclass) (R : string -> option (list string)) (s : string) :
  greedy_plus k R s = None ->
  forall g t, s = g +:+ t -> g <> EmptyString -> all_accept k g = true -> R t = None.
Proof.
  induction s as [|c s IH]; intros H g t Hs Hg Hacc.
  - destruct g; [congruence | discriminate].
  - destruct g as [|c' g]; [congruence|]. simpl in Hs. injection Hs as <- ->.
    simpl in Hacc. apply andb_true_iff in Hacc as [Hc Hacc].
    simpl in H. rewrite Hc in H.
    destruct (greedy_plus k R (g +:+ t)) as [[g0 gs0]|] eqn:E; [discriminate|].
    destruct g as [|c2 g].
    + simpl in H |- *. now destruct (R t).
    + now apply (IH eq_refl (String c2 g) t).
Qed.

(** When [k+] succeeds, the group is the longest non-empty run of [k]
    characters after which the continuation succeeds. *)
Lemma greedy_plus_Some (k : cclass) (R : string -> option (list string))
    (s g : string) (gs : list string) :
  greedy_plus k R s = Some (g, gs) ->
  exists t,
    s = g +:+ t /\ g <> EmptyString /\ all_accept k g = true /\ R t = Some gs /\
    forall g' t', s = g' +:+ t' -> g' <> EmptyString -> all_accept k g' = true ->
                  R t' <> None -> String.length g' <= String.length g.
Proof.
  revert g; induction s as [|c s IH]; intros g H; [discriminate|].
  simpl in H. destruct (accepts k c) eqn:Hc; [|discriminate].
  destruct (greedy_plus k R s) as [[g0 gs0]|] eqn:E.
  - injection H as <- <-. destruct (IH g0 eq_refl) as (t & -> & Hg0 & Hacc & HR & Hmax).
    exists t. repeat split; [discriminate | simpl; now rewrite Hc | assumption |].
    intros g' t' Hs Hg' Hacc' HR'. destruct g' as [|c' g']; [congruence|].
    simpl in Hs. injection Hs as _ Hs. simpl in Hacc'.
    apply andb_true_iff in Hacc' as [_ Hacc']. simpl.
    destruct g' as [|c2 g']; [simpl; lia|].
    apply le_n_S. now apply (Hmax (String c2 g') t').
  - destruct (R s) as [gs0|] eqn:HR; [|discriminate]. injection H as <- <-.
    exists s. repeat split; [discriminate | simpl; now rewrite Hc | assumption |].
    intros g' t' Hs Hg' Hacc' HR'. destruct g' as [|c' g']; [congruence|].
    simpl in Hs. injection Hs as _ Hs. simpl in Hacc'.
    apply andb_true_iff in Hacc' as [_ Hacc'].
    destruct g' as [|c2 g']; [simpl; lia|].
    exfalso. apply HR'. now apply (greedy_plus_None k R s E (String c2 g') t').
Qed.

Lemma append_same_length (a b c d : string) :
  a +:+ b = c +:+ d -> String.length a = String.length c -> a = c /\ b = d.
Proof.
  revert c; induction a as [|x a IH]; intros [|y c] H HL; simpl in *; try discriminate.
  - now split.
  - injection H as -> H. injection HL as HL. destruct (IH c H HL) as [-> ->]. now split.
Qed.

(** The two lemmas above determine the result. *)
Lemma greedy_plus_iff (k : cclass) (R : string -> option (list string))
    (s g : string) (gs : list string) :
  greedy_plus k R s = Some (g, gs) <->
  exists t,
    s = g +:+ t /\ g <> EmptyString /\ all_accept k g = true /\ R t = Some gs /\
    forall g' t', s = g' +:+ t' -> g' <> EmptyString -> all_accept k g' = true ->
                  R t' <> None -> String.length g' <= String.length g.
Proof.
  split; [apply greedy_plus_Some|].
  intros (t & Hs & Hg & Hacc & HR & Hmax).
  destruct (greedy_plus k R s) as [[g2 gs2]|] eqn:E.
  - destruct (greedy_plus_Some _ _ _ _ _ E) as (t2 & Hs2 & Hg2 & Hacc2 & HR2 & Hmax2).
    assert (HL : String.length g = String.length g2).
    { apply Nat.le_antisymm.
      - apply (Hmax2 g t); try assumption. now rewrite HR.
      - apply (Hmax g2 t2); try assumption. now rewrite HR2. }
    rewrite Hs in Hs2. destruct (append_same_length _ _ _ _ Hs2 HL) as [-> ->].
    rewrite HR in HR2. now injection HR2 as ->.
  - rewrite (greedy_plus_None _ _ _ E g t Hs Hg Hacc) in HR. discriminate.
Qed.

Lemma append_longer (a b c d : string) :
  a +:+ b = c +:+ d -> String.length a < String.length c ->
  exists x u, c = a +:+ String x u /\ b = String x u +:+ d.
Proof.
  revert c; induction a as [|y a IH]; intros c H HL.
  - destruct c as [|x u]; [simpl in HL; lia|]. exists x, u. simpl in *. now split.
  - destruct c as [|y' c]; [simpl in HL; lia|]. simpl in H. injection H as -> H.
    simpl in HL. destruct (IH c H) as (x & u & -> & ->); [lia|]. now exists x, u.
Qed.

(** [(\d+)] at the end of a pattern: the longest run of digits. *)
Lemma digits_group (s g : string) (gs : list string) :
  greedy_plus Digit done s = Some (g, gs) <->
  gs = [] /\ exists t, s = g +:+ t /\ g <> EmptyString /\ all_accept Digit g = true /\
                     starts_with_digit t = false.
Proof.
  rewrite greedy_plus_iff. split.
  - intros (t & -> & Hg & Hacc & [= <-] & Hmax). split; [reflexivity|].
    exists t. repeat split; try assumption.
    destruct t as [|d t]; [reflexivity|]. simpl. destruct (is_digit d) eqn:Hd; [|reflexivity].
    exfalso. specialize (Hmax (g +:+ String d EmptyString) t).
    rewrite append_assoc, PyStrFacts.append_length in Hmax. simpl in Hmax.
    assert (String.length g + 1 <= String.length g); [|lia].
    apply Hmax; [reflexivity | destruct g; discriminate | | discriminate].
    rewrite all_accept_app, Hacc. simpl. now rewrite Hd.
  - intros (-> & t & -> & Hg & Hacc & Hnd). exists t. repeat split; try assumption.
    intros g' t' Hs Hg' Hacc' _.
    destruct (Nat.le_gt_cases (String.length g') (String.length g)) as [|Hlt]; [assumption|].
    destruct (append_longer _ _ _ _ Hs Hlt) as (x & u & -> & ->).
    rewrite all_accept_app in Hacc'. apply andb_true_iff in Hacc' as [_ Hacc'].
    simpl in Hacc', Hnd. rewrite Hnd in Hacc'. discriminate.
Qed.

Lemma digits_group_starts (d : ascii) (v : string) :
  is_digit d = true -> greedy_plus Digit done (String d v) <> None.
Proof.
  intros Hd E.
  pose proof (greedy_plus_None _ _ _ E (String d EmptyString) v eq_refl) as H.
  simpl in H. rewrite Hd in H. discriminate H; [discriminate | reflexivity].
Qed.

Lemma colon_digits_unfold (t : string) :
  colon_digits t =
    match t with
    | EmptyString => None
    | String c t' =>
        if Ascii.eqb ":" c then
          match greedy_plus Digit done t' with
          | Some (g, gs) => Some (g :: gs)
          | None => None
          end
        else None
    end.
Proof. now destruct t. Qed.

Lemma colon_digits_Some (t : string) (gs : list string) :
  colon_digits t = Some gs <->
  exists line rest,
    t = ":" +:+ line +:+ rest /\ gs = [line] /\ line <> EmptyString /\
    all_accept Digit line = true /\ starts_with_digit rest = false.
Proof.
  rewrite colon_digits_unfold. split.
  - destruct t as [|c t]; [discriminate|].
    destruct (Ascii.eqb_spec ":" c) as [<-|]; [|discriminate].
    destruct (greedy_plus Digit done t) as [[g gs0]|] eqn:E; [|discriminate].
    intros [= <-]. apply digits_group in E as (-> & rest & -> & Hg & Hacc & Hnd).
    now exists g, rest.
  - intros (line & rest & -> & -> & Hl & Hacc & Hnd). simpl.
    assert (E : greedy_plus Digit done (line +:+ rest) = Some (line, [])).
    { apply digits_group. split; [reflexivity|]. now exists rest. }
    now rewrite E.
Qed.

Lemma colon_digits_starts (t : string) :
  colon_digits t <> None <-> exists d v, t = ":" +:+ String d v /\ is_digit d = true.
Proof.
  rewrite colon_digits_unfold. split.
  - destruct t as [|c t]; [congruence|].
    destruct (Ascii.eqb_spec ":" c) as [<-|]; [|congruence].
    destruct t as [|d v]; [simpl; congruence|].
    destruct (is_digit d) eqn:Hd; [intros _; now exists d, v|].
    simpl. rewrite Hd. congruence.
  - intros (d & v & -> & Hd). cbn -[greedy_plus done].
    pose proof (digits_group_starts d v Hd) as H.
    destruct (greedy_plus Digit done (String d v)) as [[? ?]|]; congruence.
Qed.

Lemma match_filename_line_unfold (key : string) :
  match_filename_line key =
    match greedy_plus Dot colon_digits key with
    | Some (g, [l]) => Some (g, l)
    | _ => None
    end.
Proof.
  unfold match_filename_line, re_match, pattern_filename_line.
  change (match_here (CapPlus Dot :: [One (Lit ":"); CapPlus Digit]) key)
    with (match greedy_plus Dot colon_digits key with
          | Some (g, gs) => Some (g :: gs)
          | None => None
          end).
  now destruct (greedy_plus Dot colon_digits key) as [[g [|l [|? ?]]]|].
Qed.

(** What [re.match(pattern_filename_line, key)] returns: the first group is
    the longest non-empty prefix without a line feed that a colon and a
    digit follow, the second group the digits after that colon. *)
Lemma match_filename_line_Some (key path line : string) :
  match_filename_line key = Some (path, line) <->
  exists rest,
    key = path +:+ ":" +:+ line +:+ rest /\
    path <> EmptyString /\ no_newline path = true /\
    line <> EmptyString /\ all_accept Digit line = true /\
    starts_with_digit rest = false /\
    forall p d v, key = p +:+ ":" +:+ String d v -> no_newline p = true ->
                  is_digit d = true -> String.length p <= String.length path.
Proof.
  rewrite match_filename_line_unfold. split.
  - destruct (greedy_plus Dot colon_digits key) as [[g gs]|] eqn:E; [|discriminate].
    apply greedy_plus_Some in E as (t & -> & Hg & Hacc & HR & Hmax).
    apply colon_digits_Some in HR as (l & rest & -> & -> & Hl & Hdig & Hnd).
    intros [= -> ->]. exists rest. rewrite all_accept_dot in Hacc.
    repeat split; try assumption.
    intros p d v Hk Hp Hd. destruct p as [|c p]; [simpl; lia|].
    apply (Hmax (String c p) (":" +:+ String d v)); try assumption; try discriminate.
    + now rewrite all_accept_dot.
    + apply colon_digits_starts. now exists d, v.
  - intros (rest & -> & Hp & Hnl & Hl & Hdig & Hnd & Hmax).
    assert (E : greedy_plus Dot colon_digits (path +:+ ":" +:+ line +:+ rest)
                = Some (path, [line])).
    { apply greedy_plus_iff. exists (":" +:+ line +:+ rest).
      repeat split; try assumption.
      - now rewrite all_accept_dot.
      - apply colon_digits_Some. now exists line, rest.
      - intros g' t' Hk Hg' Hacc' HR'.
        apply colon_digits_starts in HR' as (d & v & -> & Hd).
        apply (Hmax g' d v); try assumption. now rewrite <- all_accept_dot. }
    now rewrite E.
Qed.

Lemma match_filename_line_None (key : string) :
  match_filename_line key = None <->
  forall p d v, key = p +:+ ":" +:+ String d v -> p <> EmptyString ->
                no_newline p = true -> is_digit d = false.
Proof.
  split.
  - rewrite match_filename_line_unfold.
    destruct (greedy_plus Dot colon_digits key) as [[g gs]|] eqn:E.
    + apply greedy_plus_Some in E as (t & _ & _ & _ & HR & _).
      apply colon_digits_Some in HR as (l & rest & _ & -> & _). discriminate.
    + intros _ p d v Hk Hp Hnl. rewrite <- all_accept_dot in Hnl.
      pose proof (greedy_plus_None _ _ _ E p _ Hk Hp Hnl) as HR.
      destruct (is_digit d) eqn:Hd; [|reflexivity].
      exfalso. revert HR. apply colon_digits_starts. now exists d, v.
  - intros H. destruct (match_filename_line key) as [[path line]|] eqn:E; [|reflexivity].
    apply match_filename_line_Some in E as (rest & -> & Hp & Hnl & Hl & Hdig & _).
    destruct line as [|d l]; [congruence|]. simpl in Hdig.
    apply andb_true_iff in Hdig as [Hd _].
    rewrite (H path d (l +:+ rest) eq_refl Hp Hnl) in Hd. discriminate.
Qed.

Lemma space_b_slash_strip (s : string) :
  space_b_slash s = match strip_prefix " b/" s with Some _ => Some [] | None => None end.
Proof.
  destruct s as [|c1 [|c2 [|c3 s]]]; try reflexivity; unfold space_b_slash;
    cbn [match_here accepts strip_prefix].
  - now destruct (Ascii.eqb " " c1).
  - destruct (Ascii.eqb " " c1); [|reflexivity]. now destruct (Ascii.eqb "b" c2).
  - destruct (Ascii.eqb " " c1); [|reflexivity].
    destruct (Ascii.eqb "b" c2); [|reflexivity]. now destruct (Ascii.eqb "/" c3).
Qed.

(** [(.*?)] followed by [ b/] stops at the first [ b/] of the line. *)
Lemma lazy_star_first (a tail : string) :
  no_newline a = true ->
  cut " b/" (a +:+ " b/" +:+ tail) = Some (a, tail) ->
  lazy_star Dot space_b_slash (a +:+ " b/" +:+ tail) = Some (a, []).
Proof.
  induction a as [|c a IH]; intros Hnl Hcut.
  - reflexivity.
  - simpl in Hnl. apply andb_true_iff in Hnl as [Hc Hnl].
    change (String c a +:+ " b/" +:+ tail) with (String c (a +:+ " b/" +:+ tail)) in *.
    cbn [lazy_star]. rewrite space_b_slash_strip. cbn [cut] in Hcut.
    destruct (strip_prefix " b/" (String c (a +:+ " b/" +:+ tail))); [discriminate|].
    cbn [accepts]. rewrite Hc.
    destruct (cut " b/" (a +:+ " b/" +:+ tail)) as [[a' b']|] eqn:E; [|discriminate].
    injection Hcut as -> ->. now rewrite IH.
Qed.

(** The search finds its first [a/] at the end of the delimiter. *)
Lemma search_at_delimiter (r g : string) (gs : list string) :
  lazy_star Dot space_b_slash r = Some (g, gs) ->
  re_search pattern_filename (DIFF_DELIMITER +:+ r) = Some (g :: gs).
Proof.
  intros H.
  change (re_search pattern_filename (DIFF_DELIMITER +:+ r))
    with (match match lazy_star Dot space_b_slash r with
                | Some (g, gs) => Some (g :: gs)
                | None => None
                end with
          | Some gs => Some gs
          | None => re_search pattern_filename (String "/" r)
          end).
  now rewrite H.
Qed.

End ReFacts.

Import ReFacts.

(** C4, as the specification states it, fails: on the header of a renamed
    file the extractor returns the path before the change. *)
Lemma extractor_contract_fails : ~ extractor_contract "old.py" "new.py" nl.
Proof. unfold extractor_contract. vm_compute. discriminate. Qed.

(** C4 (amended): on a chunk [<delimiter><relative-path-a> b/<rest>], where
    relative-path-a holds no line feed and is followed by the first [ b/] of
    the header, the extractor returns relative-path-a, the path before the
    change; it is the post-change path whenever the two are equal. A chunk on
    which the search finds nothing adds nothing to the result. *)
Theorem search_filename_pre_change :
  (forall path_a tail,
     no_newline path_a = true ->
     cut " b/" (path_a +:+ " b/" +:+ tail) = Some (path_a, tail) ->
     search_filename (DIFF_DELIMITER +:+ path_a +:+ " b/" +:+ tail) = Some path_a) /\
  (forall before chunk after,
     search_filename chunk = None ->
     get_files_with_diffs (before ++ chunk :: after) =
     get_files_with_diffs (before ++ after)) /\
  search_filename ("diff --git a/x/y.py b/x/y.py" +:+ nl +:+ "+1" +:+ nl) = Some "x/y.py" /\
  search_filename ("diff --git x/y.py" +:+ nl +:+ "+1" +:+ nl) = None.
Proof.
  split; [|split; [|split; reflexivity]].
  - intros path_a tail Hnl Hcut. unfold search_filename.
    now rewrite (search_at_delimiter _ _ _ (lazy_star_first _ _ Hnl Hcut)).
  - intros before chunk after H. unfold get_files_with_diffs.
    rewrite !flat_map_app. cbn [flat_map]. now rewrite H.
Qed.

Lemma search_filename_pre_change_witness :
  search_filename (DIFF_DELIMITER +:+ "old name.py" +:+ " b/" +:+ "new.py" +:+ nl)
  = Some "old name.py".
Proof. apply (proj1 search_filename_pre_change "old name.py" ("new.py" +:+ nl)); reflexivity. Defined.

(** ** Computations *)

Module MFacts.

Lemma bind_lift_Ok {A B : Type} (a : A) (k : A -> M B) (tr : list event) :
  (lift (Ok a) ≫= k) tr = k a tr.
Proof. reflexivity. Qed.

Lemma bind_lift_Raise {A B : Type} (e : exn) (k : A -> M B) (tr : list event) :
  (lift (Raise e) ≫= k) tr = (Raise e, tr).
Proof. reflexivity. Qed.

Lemma bind_emit {B : Type} (ev : event) (k : unit -> M B) (tr : list event) :
  (emit ev ≫= k) tr = k tt (tr ++ [ev]).
Proof. reflexivity. Qed.

Lemma bind_log {B : Type} (lvl : level) (template : string) (k : unit -> M B)
    (tr : list event) :
  (log lvl template ≫= k) tr = k tt (tr ++ [Log lvl template]).
Proof. reflexivity. Qed.

Lemma bind_ret {A B : Type} (a : A) (k : A -> M B) (tr : list event) :
  (mret a ≫= k) tr = k a tr.
Proof. reflexivity. Qed.

Lemma bind_bind {A B C : Type} (m : M A) (f : A -> M B) (g : B -> M C) (tr : list event) :
  ((m ≫= f) ≫= g) tr = (m ≫= (fun a => f a ≫= g)) tr.
Proof.
  unfold mbind, M_bind. destruct (m tr) as [[a|e] tr']; [|reflexivity]. reflexivity.
Qed.

Lemma bind_result {A B : Type} (m : M A) (k : A -> M B) (tr : list event) :
  (m ≫= k) tr =
    match m tr with
    | (Ok a, tr') => k a tr'
    | (Raise e, tr') => (Raise e, tr')
    end.
Proof. reflexivity. Qed.

End MFacts.

(** Unfold the monad operations of a computation applied to a trace. *)
Ltac munfold := cbv [mbind M_bind mret M_ret lift raise emit log].
Ltac munfold_in H := cbv [mbind M_bind mret M_ret lift raise emit log] in H.

(** ** Reading the environment *)

Lemma resolve_auth_missing (W : World) :
  auth_missing W = true -> resolve_auth W = Raise ValueError.
Proof.
  unfold auth_missing, resolve_auth. intros H.
  destruct (getenv W "BITBUCKET_USERNAME") as [[|? ?]|];
    destruct (getenv W "BITBUCKET_APP_PASSWORD") as [[|? ?]|];
    destruct (getenv W "BITBUCKET_ACCESS_TOKEN") as [[|? ?]|];
    simpl in H; try discriminate; reflexivity.
Qed.

Lemma resolve_auth_cases (W : World) :
  resolve_auth W = Raise ValueError \/ exists a, resolve_auth W = Ok a.
Proof.
  unfold resolve_auth.
  destruct (getenv W "BITBUCKET_USERNAME") as [[|? ?]|];
    destruct (getenv W "BITBUCKET_APP_PASSWORD") as [[|? ?]|];
    destruct (getenv W "BITBUCKET_ACCESS_TOKEN") as [[|? ?]|]; eauto.
Qed.

Lemma main_auth_missing (W : World) :
  resolve_auth W = Raise ValueError -> main W = (Raise ValueError, []).
Proof. intros H. unfold main, init. now rewrite H. Qed.

Lemma main_pr_missing (W : World) (a : auth) :
  resolve_auth W = Ok a -> getenv W "BITBUCKET_PR_ID" = None ->
  main W = (Raise EnvironmentError, [Log INFO "Executing the pipe..."]).
Proof.
  intros Ha Hpr. unfold main, init, run. munfold. now rewrite Ha, Hpr.
Qed.

(** C7, as the specification states it, fails: with the workspace and the
    repository slug unset the diff request is sent all the same. *)
Lemma configuration_contract_fails : ~ configuration_contract world_without_target.
Proof.
  intros H. destruct H as (e & _ & Hall).
  - right; left. reflexivity.
  - vm_compute in Hall. discriminate.
Qed.

(** C7 (amended): when both authentication schemes are absent, or the
    pull-request identifier is unset, the run raises before any call leaves
    the process: [ValueError] from the constructor, with an empty trace, or
    [EnvironmentError] from [run], after its first log record. The workspace
    and the repository slug are not validated. *)
Theorem configuration_errors (W : World) :
  auth_missing W = true \/ getenv W "BITBUCKET_PR_ID" = None ->
  fails_before_network W /\
  (main W = (Raise ValueError, []) \/
   main W = (Raise EnvironmentError, [Log INFO "Executing the pipe..."])) /\
  (auth_missing W = true -> main W = (Raise ValueError, [])).
Proof.
  intros H.
  assert (Hmain : main W = (Raise ValueError, []) \/
                  main W = (Raise EnvironmentError, [Log INFO "Executing the pipe..."])).
  { destruct (resolve_auth_cases W) as [Hr|[a Ha]].
    - left. now apply main_auth_missing.
    - destruct H as [H|H].
      + apply resolve_auth_missing in H. congruence.
      + right. now apply (main_pr_missing W a). }
  split; [|split; [exact Hmain|]].
  - unfold fails_before_network. destruct Hmain as [-> | ->]; eexists; split; reflexivity.
  - intros Ha. apply main_auth_missing. now apply resolve_auth_missing.
Qed.

Lemma configuration_errors_witness :
  main world_without_pr = (Raise EnvironmentError, [Log INFO "Executing the pipe..."]).
Proof.
  destruct (configuration_errors world_without_pr) as (_ & [H|H] & _).
  - right. reflexivity.
  - vm_compute in H. discriminate H.
  - exact H.
Defined.

(** ** The run *)

(** A run whose splitter returns no chunk ends after the warning. *)
Lemma main_no_chunks (W : World) (a : auth) (pr diffs : string) (files : list string) :
  resolve_auth W = Ok a ->
  getenv W "BITBUCKET_PR_ID" = Some pr ->
  http_get W (pull_request_url (attributes W a) pr "diff") a = Ok diffs ->
  allowlist (attributes W a) = Ok files ->
  fetch_diffs diffs files DIFF_DELIMITER = Ok [] ->
  main W =
    (Ok tt,
     [Log INFO "Executing the pipe...";
      HttpGet (pull_request_url (attributes W a) pr "diff") a;
      Log DEBUG "{diffs_to_review}";
      Log WARNING "No files for codereview. Check configuration in FILES_TO_REVIEW: {self.files_to_review}"]).
Proof.
  intros Ha Hpr Hget Hfiles Hfetch.
  unfold main, init, run, get_diffs_to_review, get_pull_request_diffs. munfold.
  rewrite Ha, Hpr. cbn [auth_method_bitbucket attributes].
  change (http_get W _ a) with (http_get W (pull_request_url (attributes W a) pr "diff") a).
  rewrite Hget, Hfiles, Hfetch. reflexivity.
Qed.

Lemma fetch_diffs_empty_text (delimiter : string) (filenames : list string) :
  delimiter <> EmptyString -> filenames <> [] -> ~ In EmptyString filenames ->
  fetch_diffs EmptyString filenames delimiter = Ok [].
Proof.
  intros Hd Hne Hin. unfold fetch_diffs. rewrite (split_Ok _ _ Hd). simpl.
  destruct filenames as [|f0 fs]; [congruence|]. f_equal.
  rewrite app_nil_r. clear Hne. revert Hin.
  induction (f0 :: fs) as [|f l IH]; intros Hin; [reflexivity|].
  simpl. destruct f as [|c f]; [exfalso; apply Hin; now left|].
  simpl. apply IH. intros H. apply Hin. now right.
Qed.

(** C5, as the specification states it, fails: with no allowlist the empty
    diff text gives one chunk, the delimiter alone. *)
Lemma empty_diff_contract_fails : ~ empty_diff_contract [].
Proof. unfold empty_diff_contract. vm_compute. discriminate. Qed.

(** C5 (amended): splitting the empty diff text gives an empty sequence
    when an allowlist without empty entry is supplied, and the single chunk
    made of the delimiter when no allowlist is supplied; whenever the
    splitter returns no chunk, the run logs a warning and ends without
    calling the completion service. *)
Theorem empty_diff_text (W : World) (a : auth) (pr diffs : string) (files : list string) :
  resolve_auth W = Ok a ->
  getenv W "BITBUCKET_PR_ID" = Some pr ->
  http_get W (pull_request_url (attributes W a) pr "diff") a = Ok diffs ->
  allowlist (attributes W a) = Ok files ->
  fetch_diffs diffs files DIFF_DELIMITER = Ok [] ->
  skips_review W /\
  forallb (fun ev => negb (is_completion ev)) (snd (main W)) = true /\
  fetch_diffs EmptyString [] DIFF_DELIMITER = Ok [DIFF_DELIMITER] /\
  (forall filenames, filenames <> [] -> ~ In EmptyString filenames ->
                     fetch_diffs EmptyString filenames DIFF_DELIMITER = Ok []).
Proof.
  intros Ha Hpr Hget Hfiles Hfetch.
  pose proof (main_no_chunks W a pr diffs files Ha Hpr Hget Hfiles Hfetch) as Hmain.
  split; [|split; [|split]].
  - unfold skips_review. rewrite Hmain. split; [reflexivity|]. split; [reflexivity|].
    eexists. simpl. right; right; right; left. reflexivity.
  - now rewrite Hmain.
  - reflexivity.
  - intros filenames. now apply fetch_diffs_empty_text.
Qed.

Lemma empty_diff_text_witness : skips_review (world_with_allowlist "a.py,b.py" EmptyString).
Proof.
  apply (empty_diff_text (world_with_allowlist "a.py,b.py" EmptyString)
           (TokenAuth "secret") "7" EmptyString ["a.py"; "b.py"]); reflexivity.
Defined.

(** ** The comment publisher *)

Module PyIntFacts.
Import Re.

Lemma digit_not_space (c : ascii) : is_digit c = true -> Py.is_space c = false.
Proof.
  intros H. destruct c as [[] [] [] [] [] [] [] []];
    vm_compute in H; try discriminate H; reflexivity.
Qed.

Lemma rstrip_digits (s : string) : all_accept Digit s = true -> Py.rstrip s = s.
Proof.
  induction s as [|c s IH]; [reflexivity|]. simpl. intros [Hc Hs]%andb_true_iff.
  rewrite (IH Hs). destruct s; [|reflexivity]. now rewrite (digit_not_space c Hc).
Qed.

Lemma digits_total (s : string) :
  all_accept Digit s = true -> forall acc, exists z, Py.digits acc true s = Some z.
Proof.
  induction s as [|c s IH]; intros H acc; [now exists acc|].
  simpl in H. apply andb_true_iff in H as [Hc Hs]. simpl. rewrite Hc. now apply IH.
Qed.

Lemma digits_nonneg (s : string) :
  forall acc after z, (0 <= acc)%Z -> Py.digits acc after s = Some z -> (0 <= z)%Z.
Proof.
  induction s as [|c s IH]; intros acc after z Hacc H; cbn [Py.digits] in H.
  - destruct after; [|discriminate]. now injection H as <-.
  - destruct (Re.is_digit c) eqn:Hc.
    + apply (IH (10 * acc + Py.digit_val c)%Z true z); [|assumption].
      unfold Re.is_digit in Hc. apply andb_true_iff in Hc as [Hlo _].
      apply Nat.leb_le in Hlo. unfold Py.digit_val. lia.
    + destruct (Ascii.eqb c "_"); [|discriminate]. destruct after; [|discriminate].
      now apply (IH acc false z).
Qed.

Lemma digit_count_digits (s : string) :
  all_accept Digit s = true -> Py.digit_count s = String.length s.
Proof.
  induction s as [|c s IH]; [reflexivity|]. simpl. intros [Hc Hs]%andb_true_iff.
  now rewrite Hc, (IH Hs).
Qed.

(** [int] on a non-empty run of digits: its value when the run has no more
    than [int_max_str_digits] digits, [ValueError] when it has more. *)
Lemma int_of_digits (line : string) :
  line <> EmptyString -> all_accept Digit line = true ->
  exists z,
    (0 <= z)%Z /\
    Py.int line =
      if (String.length line <=? Py.int_max_str_digits)%nat then Ok z else Raise ValueError.
Proof.
  intros Hne Hall. destruct line as [|c s]; [congruence|].
  pose proof Hall as Hall'. simpl in Hall'. apply andb_true_iff in Hall' as [Hc Hs].
  assert (Hd : exists z, Py.digits 0 false (String c s) = Some z).
  { cbn [Py.digits]. rewrite Hc. now apply digits_total. }
  destruct Hd as [z Hz]. exists z. split; [apply (digits_nonneg (String c s) 0%Z false z); [lia | exact Hz]|].
  unfold Py.int. cbv zeta. cbn [Py.lstrip].
  rewrite (digit_not_space c Hc), (rstrip_digits _ Hall), (digit_count_digits _ Hall).
  destruct c as [[] [] [] [] [] [] [] []]; vm_compute in Hc; try discriminate Hc;
    now rewrite Hz.
Qed.

End PyIntFacts.

(** The line of a matched key is a run of digits: [int] takes it when it
    has no more than [int_max_str_digits] digits, and raises [ValueError]
    when it has more. *)
Lemma matched_line_int (key filename line : string) :
  match_filename_line key = Some (filename, line) ->
  exists to,
    (0 <= to)%Z /\
    Py.int line =
      if (String.length line <=? Py.int_max_str_digits)%nat then Ok to else Raise ValueError.
Proof.
  intros (rest & _ & _ & _ & Hl & Hd & _)%ReFacts.match_filename_line_Some.
  now apply PyIntFacts.int_of_digits.
Qed.

Lemma matched_line_short (key filename line : string) :
  match_filename_line key = Some (filename, line) ->
  String.length line <= Py.int_max_str_digits -> exists to, Py.int line = Ok to.
Proof.
  intros Hm Hle. destruct (matched_line_int _ _ _ Hm) as (to & _ & Hi). exists to.
  apply Nat.leb_le in Hle. now rewrite Hle in Hi.
Qed.

Lemma matched_line_long (key filename line : string) :
  match_filename_line key = Some (filename, line) ->
  Py.int_max_str_digits < String.length line -> Py.int line = Raise ValueError.
Proof.
  intros Hm Hlt. destruct (matched_line_int _ _ _ Hm) as (to & _ & Hi).
  apply Nat.leb_gt in Hlt. now rewrite Hlt in Hi.
Qed.

Lemma matched_line_raises (key filename line : string) (e : exn) :
  match_filename_line key = Some (filename, line) -> Py.int line = Raise e ->
  e = ValueError /\ Py.int_max_str_digits < String.length line.
Proof.
  intros Hm He. destruct (matched_line_int _ _ _ Hm) as (to & _ & Hi). rewrite He in Hi.
  destruct (Nat.leb_spec (String.length line) Py.int_max_str_digits); [discriminate|].
  split; [congruence | assumption].
Qed.

Section Publisher.

Variable W : World.
Variable self : CodeReviewPipe.
Variable pull_request_id : string.

(** An entry whose key does not match, or whose body is empty, changes
    nothing: no request, no count, no exception. *)
Lemma add_comments_loop_skip (key : string) (content : json)
    (items : list (string * json)) (files : list string) (counter : Z) :
  match_filename_line key = None \/ Py.len content = Ok 0 ->
  add_comments_loop W self pull_request_id ((key, content) :: items) files counter =
  add_comments_loop W self pull_request_id items files counter.
Proof.
  intros [H|H]; cbn [add_comments_loop].
  - now rewrite H.
  - rewrite H. now destruct (match_filename_line key) as [[? ?]|].
Qed.

(** A matching entry with a body sends one inline comment. *)
Lemma add_comments_loop_publish (key filename line : string) (content : json) (n : nat)
    (to : Z) (items : list (string * json)) (files : list string) (counter : Z)
    (tr : list event) :
  match_filename_line key = Some (filename, line) ->
  Py.len content = Ok (S n) -> Py.int line = Ok to ->
  add_comments_loop W self pull_request_id ((key, content) :: items) files counter tr =
    let url := pull_request_url self pull_request_id "comments" in
    let payload := inline_payload filename to content in
    let tr' := tr ++ [HttpPost url (auth_method_bitbucket self) payload] in
    match http_post W tr url (auth_method_bitbucket self) payload with
    | Ok _ => add_comments_loop W self pull_request_id items (files ++ [filename])
                (counter + 1)%Z tr'
    | Raise e => (Raise e, tr')
    end.
Proof.
  intros Hm Hl Hi. cbn [add_comments_loop]. rewrite Hm. munfold. rewrite Hl, Hi.
  unfold add_comment. cbv zeta.
  now destruct (http_post W tr _ (auth_method_bitbucket self) _) as [[]|e].
Qed.

(** A matching entry with a body whose line [int] does not take raises,
    and sends nothing. *)
Lemma add_comments_loop_int_raises (key filename line : string) (content : json) (n : nat)
    (e : exn) (items : list (string * json)) (files : list string) (counter : Z)
    (tr : list event) :
  match_filename_line key = Some (filename, line) ->
  Py.len content = Ok (S n) -> Py.int line = Raise e ->
  add_comments_loop W self pull_request_id ((key, content) :: items) files counter tr =
    (Raise e, tr).
Proof.
  intros Hm Hl Hi. cbn [add_comments_loop]. rewrite Hm. munfold. now rewrite Hl, Hi.
Qed.

(** What the loop has done when it returns: the requests of the inline
    comments, each of them accepted by the sink, one more in the count and
    one more path for each. *)
Lemma add_comments_loop_report (items : list (string * json)) :
  forall files counter tr files' counter' tr',
    add_comments_loop W self pull_request_id items files counter tr
    = (Ok (files', counter'), tr') ->
    exists comments,
      tr' = tr ++ map (inline_comment self pull_request_id) comments /\
      counter' = (counter + Z.of_nat (length comments))%Z /\
      files' = files ++ map (fun c => fst (fst c)) comments /\
      forall sent c rest,
        comments = sent ++ c :: rest ->
        http_post W (tr ++ map (inline_comment self pull_request_id) sent)
          (pull_request_url self pull_request_id "comments") (auth_method_bitbucket self)
          (inline_payload (fst (fst c)) (snd (fst c)) (snd c)) = Ok tt.
Proof.
  induction items as [|[key content] items IH]; intros files counter tr files' counter' tr' H.
  - injection H as <- <- <-. exists []. simpl. rewrite !app_nil_r, Z.add_0_r.
    repeat split. intros [|? ?] ? ? ?; discriminate.
  - destruct (match_filename_line key) as [[filename line]|] eqn:Hm.
    2:{ rewrite add_comments_loop_skip in H by now left. now apply IH. }
    destruct (Py.len content) as [[|n]|e] eqn:Hl.
    + rewrite add_comments_loop_skip in H by now right. now apply IH.
    + destruct (Py.int line) as [to|e] eqn:Hi.
      * rewrite (add_comments_loop_publish _ _ _ _ _ _ _ _ _ _ Hm Hl Hi) in H.
        cbv zeta in H.
        destruct (http_post W tr _ (auth_method_bitbucket self) _) as [[]|e] eqn:Hp;
          [|discriminate].
        apply IH in H as (comments & -> & -> & -> & Hacc).
        exists ((filename, to, content) :: comments). rewrite <- !app_assoc. cbn [app map].
        split; [reflexivity|]. split; [cbn [length]; lia|]. split; [reflexivity|].
        intros [|c0 sent] c rest Hc; injection Hc as <- ->.
        -- cbn [map fst snd]. now rewrite app_nil_r.
        -- cbn [map]. specialize (Hacc sent c rest eq_refl).
           now rewrite <- app_assoc in Hacc.
      * rewrite (add_comments_loop_int_raises _ _ _ _ _ _ _ _ _ _ Hm Hl Hi) in H.
        discriminate.
    + cbn [add_comments_loop] in H. rewrite Hm in H. munfold_in H.
      rewrite Hl in H. discriminate.
Qed.

(** The loop returns when the sink takes every comment, every body is a
    text and no line has more digits than [int] takes. *)
Lemma add_comments_loop_returns (items : list (string * json)) :
  (forall tr url a payload, http_post W tr url a payload = Ok tt) ->
  Forall (fun kv => exists text, snd kv = JStr text) items ->
  lines_within_limit items = true ->
  forall files counter tr,
    exists r tr', add_comments_loop W self pull_request_id items files counter tr
                  = (Ok r, tr').
Proof.
  intros Hsink Hitems. induction Hitems as [|[key content] items [text Ht] _ IH];
    intros Hlim files counter tr.
  - now eexists _, _.
  - simpl in Ht. subst content. unfold lines_within_limit in Hlim. cbn [forallb fst] in Hlim.
    apply andb_true_iff in Hlim as [Hk Hlim].
    destruct (match_filename_line key) as [[filename line]|] eqn:Hm.
    2:{ rewrite add_comments_loop_skip by now left. now apply IH. }
    destruct text as [|c text].
    + rewrite add_comments_loop_skip by now right. now apply IH.
    + apply Nat.leb_le in Hk. destruct (matched_line_short _ _ _ Hm Hk) as [to Hi].
      rewrite (add_comments_loop_publish key filename line (JStr (String c text))
                 (String.length text) to items files counter tr Hm eq_refl Hi).
      cbv zeta. rewrite Hsink. now apply IH.
Qed.

End Publisher.

(** C9: when the comment publisher returns, the trace has grown by the
    requests of the inline comments, each of which the comment sink accepted,
    so that it was published; the count is their number and the set is the
    set of their paths. It does return when the sink accepts every comment,
    every feedback is a text and no matched line has more than
    [int_max_str_digits] digits. For the suggestions [a.py:1] with a feedback
    and [b.py:2] with an empty one, one comment is published and the result
    is the set of [a.py] with count 1. *)
Theorem add_comments_report :
  (forall W self pull_request_id data tr files count tr',
     add_comments W self pull_request_id data tr = (Ok (files, count), tr') ->
     exists comments,
       tr' = tr ++ map (inline_comment self pull_request_id) comments /\
       count = Z.of_nat (length comments) /\
       files = list_to_set (map (fun c => fst (fst c)) comments) /\
       forall sent c rest,
         comments = sent ++ c :: rest ->
         http_post W (tr ++ map (inline_comment self pull_request_id) sent)
           (pull_request_url self pull_request_id "comments") (auth_method_bitbucket self)
           (inline_payload (fst (fst c)) (snd (fst c)) (snd c)) = Ok tt) /\
  (forall W self pull_request_id items tr,
     (forall tr url a payload, http_post W tr url a payload = Ok tt) ->
     Forall (fun kv => exists text, snd kv = JStr text) items ->
     lines_within_limit items = true ->
     exists files count tr',
       add_comments W self pull_request_id (JObj items) tr = (Ok (files, count), tr')) /\
  add_comments (sample_world sample_env (Ok diff_of_a_b) 10 review_m_py) sample_pipe "7"
    (JObj [("a.py:1", JStr "fix this"); ("b.py:2", JStr "")]) []
  = (Ok ({["a.py"]}, 1%Z),
     [inline_comment sample_pipe "7" ("a.py", 1%Z, JStr "fix this")]).
Proof.
  split; [|split].
  - intros W self pr data tr files count tr' H. unfold add_comments in H.
    destruct data; try discriminate H. simpl Py.items in H. munfold_in H.
    destruct (add_comments_loop W self pr l [] 0%Z tr) as [[[fs n]|e] tr1] eqn:E;
      [|discriminate].
    injection H as <- <- <-.
    apply add_comments_loop_report in E as (comments & -> & -> & -> & Hacc).
    exists comments. auto.
  - intros W self pr items tr Hsink Hitems Hlim. unfold add_comments. simpl Py.items. munfold.
    destruct (add_comments_loop_returns W self pr items Hsink Hitems Hlim [] 0%Z tr)
      as ([fs n] & tr' & ->).
    now eexists _, _, _.
  - vm_compute. reflexivity.
Qed.

Lemma add_comments_report_witness :
  exists comments,
    [inline_comment sample_pipe "7" ("a.py", 1%Z, JStr "fix this")]
    = [] ++ map (inline_comment sample_pipe "7") comments /\
    1%Z = Z.of_nat (length comments) /\
    ({["a.py"]} : gset string) = list_to_set (map (fun c => fst (fst c)) comments) /\
    forall sent c rest,
      comments = sent ++ c :: rest ->
      http_post (sample_world sample_env (Ok diff_of_a_b) 10 review_m_py)
        ([] ++ map (inline_comment sample_pipe "7") sent)
        (pull_request_url sample_pipe "7" "comments") (auth_method_bitbucket sample_pipe)
        (inline_payload (fst (fst c)) (snd (fst c)) (snd c)) = Ok tt.
Proof.
  apply (proj1 add_comments_report
           (sample_world sample_env (Ok diff_of_a_b) 10 review_m_py) sample_pipe "7"
           (JObj [("a.py:1", JStr "fix this"); ("b.py:2", JStr "")])).
  vm_compute. reflexivity.
Defined.

Lemma digits_last (line : string) :
  line <> EmptyString -> all_accept Re.Digit line = true ->
  exists l d, line = l +:+ String d EmptyString /\ Re.is_digit d = true.
Proof.
  induction line as [|c line IH]; intros Hne H; [congruence|].
  simpl in H. apply andb_true_iff in H as [Hc H]. destruct line as [|c' line].
  - now exists EmptyString, c.
  - destruct IH as (l & d & -> & Hd); [discriminate | assumption|].
    now exists (String c l), d.
Qed.

Lemma snoc_last (a b : string) (c d : ascii) :
  a +:+ String c EmptyString = b +:+ String d EmptyString -> c = d.
Proof.
  revert b; induction a as [|x a IH]; intros [|y b] H; simpl in H.
  - now injection H.
  - injection H as _ H. destruct b; discriminate.
  - injection H as _ H. destruct a; discriminate.
  - injection H as _ H. now apply (IH b).
Qed.

(** A key in the location-key format ends with a digit. *)
Lemma location_key_format_last (key : string) :
  location_key_format key ->
  exists pre d, key = pre +:+ String d EmptyString /\ Re.is_digit d = true.
Proof.
  intros (path & line & -> & Hne & Hd).
  destruct (digits_last line Hne Hd) as (l & d & -> & Hdig).
  exists (path +:+ ":" +:+ l), d. now rewrite !append_assoc.
Qed.

(** C3, as the specification states it, fails: the key [src/app.py:42abc]
    is not in the location-key format, and its feedback is published. *)
Lemma skips_malformed_key_fails : ~ skips_malformed_key "src/app.py:42abc" (JStr "fix this").
Proof.
  intros H.
  assert (Hf : ~ location_key_format "src/app.py:42abc").
  { intros (pre & d & Hk & Hd)%location_key_format_last.
    change "src/app.py:42abc" with ("src/app.py:42ab" +:+ String "c" EmptyString) in Hk.
    apply snoc_last in Hk. subst d. discriminate Hd. }
  specialize (H Hf (sample_world sample_env (Ok diff_of_a_b) 10 review_m_py) sample_pipe "7" []).
  vm_compute in H. discriminate H.
Qed.

(** C3 (amended): a key is matched from its start only. It matches when a
    non-empty prefix without line feed is followed by a colon and a digit;
    the path is the longest such prefix, the line the digits after that
    colon, and the text after the digits is ignored. An entry whose key does
    not match, or whose feedback is empty, is skipped: no request, no count,
    no exception. The line of a matched key is read with [int]: it is an
    integer when it has no more than [int_max_str_digits] digits; when it has
    more, [int] raises [ValueError], and so does the publisher on such an
    entry with a feedback that is not empty, without sending anything for it.
    [src/app.py:42] gives the path [src/app.py] and the line 42,
    [src/app.py:42abc] the same; [src/app.py] and [src/app.py:abc] do not
    match. *)
Theorem location_key_matching :
  (forall key path line,
     match_filename_line key = Some (path, line) <->
     exists rest,
       key = path +:+ ":" +:+ line +:+ rest /\
       path <> EmptyString /\ no_newline path = true /\
       line <> EmptyString /\ all_accept Re.Digit line = true /\
       starts_with_digit rest = false /\
       forall p d v, key = p +:+ ":" +:+ String d v -> no_newline p = true ->
                     Re.is_digit d = true -> String.length p <= String.length path) /\
  (forall key,
     match_filename_line key = None <->
     forall p d v, key = p +:+ ":" +:+ String d v -> p <> EmptyString ->
                   no_newline p = true -> Re.is_digit d = false) /\
  (forall W self pull_request_id key content items files counter,
     match_filename_line key = None \/ Py.len content = Ok 0 ->
     add_comments_loop W self pull_request_id ((key, content) :: items) files counter =
     add_comments_loop W self pull_request_id items files counter) /\
  (forall key path line,
     match_filename_line key = Some (path, line) ->
     (String.length line <= Py.int_max_str_digits -> exists to, Py.int line = Ok to) /\
     (Py.int_max_str_digits < String.length line ->
      Py.int line = Raise ValueError /\
      forall W self pull_request_id content n items files counter tr,
        Py.len content = Ok (S n) ->
        add_comments_loop W self pull_request_id ((key, content) :: items) files counter tr
        = (Raise ValueError, tr))) /\
  match_filename_line "src/app.py:42" = Some ("src/app.py", "42") /\
  Py.int "42" = Ok 42%Z /\
  match_filename_line "src/app.py:42abc" = Some ("src/app.py", "42") /\
  match_filename_line "src/app.py" = None /\
  match_filename_line "src/app.py:abc" = None.
Proof.
  split; [exact match_filename_line_Some|].
  split; [exact match_filename_line_None|].
  split; [exact add_comments_loop_skip|].
  split; [|repeat split; reflexivity].
  intros key path line Hm. split.
  - now apply (matched_line_short key path line).
  - intros Hlt. pose proof (matched_line_long key path line Hm Hlt) as Hi.
    split; [exact Hi|]. intros W self pr content n items files counter tr Hl.
    now apply (add_comments_loop_int_raises W self pr key path line content n).
Qed.

Lemma location_key_matching_witness :
  add_comments_loop (world_with_reply review_m_py) sample_pipe "7"
    [("src/app.py:abc", JStr "fix this")] [] 0%Z =
  add_comments_loop (world_with_reply review_m_py) sample_pipe "7" [] [] 0%Z.
Proof.
  apply (proj1 (proj2 (proj2 location_key_matching))). left. reflexivity.
Defined.

(** ** The token ceiling and the reply *)

(** Over the ceiling, [get_code_review] logs and returns [None]. *)
Lemma get_code_review_over_limit (W : World) (self : CodeReviewPipe)
    (diffs_to_review : list string) (num_tokens limit : Z) (tr : list event) :
  num_tokens_from_messages W self (review_messages W self diffs_to_review) = Ok num_tokens ->
  Py.int (default "0" (getenv W "CHATGPT_PROMPT_MAX_TOKENS")) = Ok limit ->
  limit <> 0%Z -> (num_tokens > limit)%Z ->
  get_code_review W self diffs_to_review tr =
    (Ok JNull,
     tr ++ [Log WARNING "The number of tokens is ~{num_tokens} that more then allowed CHATGPT_PROMPT_MAX_TOKENS {chat_gpt_token_limit} tokens";
            Log INFO "Pipe is stopped."]).
Proof.
  intros Hn Hl H0 Hgt. unfold get_code_review. cbv zeta. munfold. rewrite Hn, Hl.
  destruct (limit =? 0)%Z eqn:E0; [apply Z.eqb_eq in E0; congruence|].
  destruct (limit <? num_tokens)%Z eqn:E1; [|apply Z.ltb_ge in E1; lia].
  cbn [negb andb]. now rewrite <- app_assoc.
Qed.

(** What [run] does with the [None] of [get_code_review]. *)
Lemma get_of_None (key : string) : Py.get JNull key = Raise AttributeError.
Proof. reflexivity. Qed.

(** What [add_comments] does with the [None] of an absent [suggestions]. *)
Lemma add_comments_None (W : World) (self : CodeReviewPipe) (pr : string) (tr : list event) :
  add_comments W self pr JNull tr = (Raise AttributeError, tr).
Proof. reflexivity. Qed.

Lemma get_absent (l : list (string * json)) (key : string) :
  Py.lookup key l = None -> Py.get (JObj l) key = Ok JNull.
Proof. intros H. unfold Py.get. now rewrite H. Qed.


(** Whenever the prompt is over the ceiling, what is left of [run] raises
    [AttributeError] after the two log records. *)
Lemma publish_review_over_limit (W : World) (self : CodeReviewPipe) (pr : string)
    (diffs_to_review : list string) (num_tokens limit : Z) (tr : list event) :
  num_tokens_from_messages W self (review_messages W self diffs_to_review) = Ok num_tokens ->
  Py.int (default "0" (getenv W "CHATGPT_PROMPT_MAX_TOKENS")) = Ok limit ->
  limit <> 0%Z -> (num_tokens > limit)%Z ->
  (get_code_review W self diffs_to_review ≫= publish_review W self pr) tr =
    (Raise AttributeError,
     tr ++ [Log WARNING "The number of tokens is ~{num_tokens} that more then allowed CHATGPT_PROMPT_MAX_TOKENS {chat_gpt_token_limit} tokens";
            Log INFO "Pipe is stopped."]).
Proof.
  intros Hn Hl H0 Hgt. rewrite MFacts.bind_result.
  now rewrite (get_code_review_over_limit W self diffs_to_review num_tokens limit tr Hn Hl H0 Hgt).
Qed.

(** Whenever the reply is a [dict] without [suggestions], what is left of
    [run] raises [AttributeError], after the summary comment if there is a
    summary and the sink takes it. *)
Lemma publish_review_absent_suggestions (W : World) (self : CodeReviewPipe) (pr : string)
    (reply : list (string * json)) (tr : list event) :
  Py.lookup "suggestions" reply = None ->
  let summary := default JNull (Py.lookup "summary" reply) in
  publish_review W self pr (JObj reply) tr =
    if Py.truthy summary then
      match http_post W tr (pull_request_url self pr "comments") (auth_method_bitbucket self)
              (JObj [("content", JObj [("raw", summary)])]) with
      | Ok _ => (Raise AttributeError, tr ++ [summary_comment self pr summary])
      | Raise e => (Raise e, tr ++ [summary_comment self pr summary])
      end
    else (Raise AttributeError, tr).
Proof.
  intros Hs summary. unfold publish_review, Py.get. rewrite Hs. munfold. fold summary.
  cbn [default]. destruct (Py.truthy summary); [|reflexivity].
  unfold add_summary, add_comment, summary_comment.
  now destruct (http_post W tr _ (auth_method_bitbucket self) _) as [[]|e].
Qed.

(** C1: with a ceiling of 3000 tokens and a prompt of 5000, the completion
    service is not called, nothing is posted and the warning is logged, but
    the run does not end well: [run] calls [get] on the [None] that
    [get_code_review] returned and [AttributeError] is raised. *)
Theorem token_limit_run_raises :
  num_tokens_from_messages world_over_token_limit sample_pipe
    (review_messages world_over_token_limit sample_pipe
       [DIFF_DELIMITER;
        "diff --git a/a.py b/a.py" +:+ nl +:+ "+import os" +:+ nl;
        "diff --git a/b.py b/b.py" +:+ nl +:+ "-import re" +:+ nl]) = Ok 5000%Z /\
  main world_over_token_limit =
    (Raise AttributeError,
     sample_prefix ++
     [Log WARNING "The number of tokens is ~{num_tokens} that more then allowed CHATGPT_PROMPT_MAX_TOKENS {chat_gpt_token_limit} tokens";
      Log INFO "Pipe is stopped."]) /\
  ~ skips_review world_over_token_limit.
Proof.
  split; [reflexivity|]. split; [vm_compute; reflexivity|].
  intros (H & _). vm_compute in H. discriminate H.
Qed.

(** C6: a reply with a summary and no [suggestions] does not complete the
    run: the summary is posted, then [add_comments] calls [items] on [None]
    and [AttributeError] is raised; an empty reply raises as well. With
    [suggestions] present and empty the run completes, with a summary
    comment when a summary was returned and no inline comment. *)
Theorem absent_suggestions_run_raises :
  main (world_with_reply (JObj [("summary", JStr "Looks fine overall.")])) =
    (Raise AttributeError,
     sample_prefix ++ sample_completion ++
     [summary_comment sample_pipe "7" (JStr "Looks fine overall.")]) /\
  main (world_with_reply (JObj [])) =
    (Raise AttributeError, sample_prefix ++ sample_completion) /\
  main (world_with_reply (JObj [("summary", JStr "Looks fine overall.");
                                ("suggestions", JObj [])])) =
    (Ok tt,
     sample_prefix ++ sample_completion ++
     [summary_comment sample_pipe "7" (JStr "Looks fine overall.")] ++ sample_closing) /\
  main (world_with_reply (JObj [("suggestions", JObj [])])) =
    (Ok tt, sample_prefix ++ sample_completion ++ sample_closing) /\
  main (world_with_reply (JObj [("summary", JStr ""); ("suggestions", JObj [])])) =
    (Ok tt, sample_prefix ++ sample_completion ++ sample_closing).
Proof. repeat split; vm_compute; reflexivity. Qed.

(** * Further properties *)

(** ** Splitting *)

Lemma cut_None_intro (sep s : string) :
  (forall u v, s = u +:+ v -> strip_prefix sep v = None) -> cut sep s = None.
Proof.
  induction s as [|c s IH]; intros H; simpl.
  - now rewrite (H EmptyString EmptyString eq_refl).
  - rewrite (H EmptyString (String c s) eq_refl).
    rewrite IH; [reflexivity|]. intros u v ->. now apply (H (String c u) v).
Qed.

(** The text before the occurrence [cut] finds holds no occurrence. *)
Lemma cut_before_clean (sep s a b : string) :
  sep <> EmptyString -> cut sep s = Some (a, b) -> cut sep a = None.
Proof.
  intros Hsep E. apply cut_None_intro. intros u v ->.
  destruct v as [|c v]; [destruct sep; [congruence | reflexivity]|].
  pose proof (cut_leftmost _ _ _ _ E u (String c v) eq_refl) as H.
  destruct (strip_prefix sep (String c v)) as [r|] eqn:Er; [|reflexivity].
  apply strip_prefix_Some in Er. rewrite Er, append_assoc, strip_prefix_app in H.
  discriminate H. now rewrite <- Er.
Qed.

(** With enough fuel no piece holds the separator. *)
Lemma split_fuel_clean (n : nat) (sep s : string) :
  sep <> EmptyString -> String.length s <= n ->
  Forall (fun piece => contains piece sep = false) (split_fuel n sep s).
Proof.
  intros Hsep. revert s; induction n as [|n IH]; intros s Hn.
  - destruct s; [|simpl in Hn; lia]. constructor; [|constructor].
    unfold contains. destruct sep; [congruence | reflexivity].
  - cbn [split_fuel]. destruct (cut sep s) as [[a b]|] eqn:E.
    + constructor.
      * unfold contains. now rewrite (cut_before_clean _ _ _ _ Hsep E).
      * apply IH. pose proof (cut_length _ _ _ _ E).
        assert (0 < String.length sep) by (destruct sep; [congruence | simpl; lia]). lia.
    + constructor; [|constructor]. unfold contains. now rewrite E.
Qed.

Lemma contains_positions (s : string) :
  contains s DIFF_DELIMITER = false -> positions DIFF_DELIMITER s = 0.
Proof.
  unfold contains. destruct (cut DIFF_DELIMITER s) eqn:E; [discriminate|].
  intros _. now apply positions_cut_None.
Qed.

(** X1: every chunk the splitter returns, with or without allowlist, is the
    delimiter followed by a text that holds no delimiter; for the delimiter
    of the program, the delimiter starts at exactly one position of a chunk,
    its first. *)
Theorem fetch_diffs_one_delimiter (diffs delimiter : string) (filenames : list string) :
  delimiter <> EmptyString ->
  exists chunks,
    fetch_diffs diffs filenames delimiter = Ok chunks /\
    Forall (fun chunk =>
              exists diff, chunk = delimiter +:+ diff /\ contains diff delimiter = false /\
                           (delimiter = DIFF_DELIMITER -> positions DIFF_DELIMITER chunk = 1))
           chunks.
Proof.
  intros Hd. unfold fetch_diffs. rewrite (split_Ok _ _ Hd).
  pose proof (split_fuel_clean (String.length diffs) delimiter diffs Hd (le_n _)) as Hclean.
  rewrite List.Forall_forall in Hclean.
  assert (Hone : forall d, In d (split_fuel (String.length diffs) delimiter diffs) ->
                 exists diff, delimiter +:+ d = delimiter +:+ diff /\
                   contains diff delimiter = false /\
                   (delimiter = DIFF_DELIMITER ->
                    positions DIFF_DELIMITER (delimiter +:+ d) = 1)).
  { intros d Hin. exists d. split; [reflexivity|]. split; [now apply Hclean|].
    intros ->. rewrite positions_delimiter. f_equal. apply contains_positions.
    now apply Hclean. }
  destruct filenames as [|f0 fs]; eexists; (split; [reflexivity|]);
    apply List.Forall_forall; intros chunk Hin.
  - apply in_map_iff in Hin as (d & <- & Hin). now apply Hone.
  - apply in_flat_map in Hin as (d & Hin & Hc).
    apply in_filter_chunks in Hc as (-> & _). now apply Hone.
Qed.

Lemma fetch_diffs_one_delimiter_witness :
  exists chunks,
    fetch_diffs diff_of_a_b ["a.py"] DIFF_DELIMITER = Ok chunks /\
    Forall (fun chunk =>
              exists diff, chunk = DIFF_DELIMITER +:+ diff /\
                           contains diff DIFF_DELIMITER = false /\
                           (DIFF_DELIMITER = DIFF_DELIMITER ->
                            positions DIFF_DELIMITER chunk = 1))
           chunks.
Proof. apply (fetch_diffs_one_delimiter diff_of_a_b DIFF_DELIMITER ["a.py"]). discriminate. Defined.

(** X2: a diff text that starts with the delimiter, as every diff of the
    diff source does, gives the bare delimiter as first chunk, before the
    chunks of the rest of the text; the filename extractor finds no filename
    in that chunk. *)
Theorem fetch_diffs_leading_delimiter (rest delimiter : string) :
  delimiter <> EmptyString ->
  exists chunks,
    fetch_diffs rest [] delimiter = Ok chunks /\
    fetch_diffs (delimiter +:+ rest) [] delimiter = Ok (delimiter :: chunks) /\
    (delimiter = DIFF_DELIMITER ->
     get_files_with_diffs (delimiter :: chunks) = get_files_with_diffs chunks).
Proof.
  intros Hd. unfold fetch_diffs. rewrite (split_unfold (delimiter +:+ rest) _ Hd).
  assert (E : cut delimiter (delimiter +:+ rest) = Some (EmptyString, rest)).
  { destruct delimiter as [|c d]; [congruence|].
    change (String c d +:+ rest) with (String c (d +:+ rest)). cbn [cut].
    change (String c (d +:+ rest)) with (String c d +:+ rest).
    now rewrite strip_prefix_app. }
  rewrite E, (split_Ok _ _ Hd). eexists; split; [reflexivity|]. split.
  - cbn [map]. now rewrite append_nil_r.
  - intros ->. reflexivity.
Qed.

Lemma fetch_diffs_leading_delimiter_witness :
  exists chunks,
    fetch_diffs "a.py b/a.py" [] DIFF_DELIMITER = Ok chunks /\
    fetch_diffs (DIFF_DELIMITER +:+ "a.py b/a.py") [] DIFF_DELIMITER
    = Ok (DIFF_DELIMITER :: chunks) /\
    (DIFF_DELIMITER = DIFF_DELIMITER ->
     get_files_with_diffs (DIFF_DELIMITER :: chunks) = get_files_with_diffs chunks).
Proof. apply (fetch_diffs_leading_delimiter "a.py b/a.py" DIFF_DELIMITER). discriminate. Defined.

(** X3: the allowlist is read from [FILES_TO_REVIEW] as it is written: no
    filtering when the variable is unset or empty; otherwise a non-empty list
    of entries without comma which, joined by commas, give the text of the
    variable back, so that nothing is trimmed or dropped. *)
Theorem allowlist_round_trip (self : CodeReviewPipe) :
  (files_to_review self = None \/ files_to_review self = Some EmptyString ->
   allowlist self = Ok []) /\
  (forall text, files_to_review self = Some text -> text <> EmptyString ->
   exists entries,
     allowlist self = Ok entries /\ entries <> [] /\
     join "," entries = text /\
     Forall (fun entry => contains entry "," = false) entries).
Proof.
  split.
  - unfold allowlist. now intros [-> | ->].
  - intros text Ht Hne. unfold allowlist. rewrite Ht.
    destruct text as [|c t]; [congruence|].
    change (split (String c t) ",") with
      (Ok (split_fuel (String.length (String c t)) "," (String c t))).
    pose proof (join_split_fuel (String.length (String c t)) "," (String c t)) as Hj.
    pose proof (split_fuel_clean (String.length (String c t)) "," (String c t)) as Hc.
    destruct (split_fuel (String.length (String c t)) "," (String c t)) as [|e l] eqn:E.
    + now apply split_fuel_nonempty in E.
    + exists (e :: l). repeat split; [discriminate | exact Hj |].
      apply Hc; [discriminate | lia].
Qed.

Lemma allowlist_round_trip_witness :
  exists entries,
    allowlist (attributes (world_with_allowlist " a.py,,b.py " diff_of_a_b) (TokenAuth "secret"))
    = Ok entries /\ entries <> [] /\
    join "," entries = " a.py,,b.py " /\
    Forall (fun entry => contains entry "," = false) entries.
Proof.
  apply (proj2 (allowlist_round_trip
                  (attributes (world_with_allowlist " a.py,,b.py " diff_of_a_b)
                     (TokenAuth "secret")))).
  - reflexivity.
  - discriminate.
Defined.

Lemma startswith_comparable (d f g : string) :
  startswith d f = true -> startswith d g = true ->
  startswith g f = true \/ startswith f g = true.
Proof.
  rewrite !startswith_iff. intros [r Hf] [r' Hg]. subst d.
  revert g r r' Hg. induction f as [|c f IH]; intros g r r' Hg.
  - left. now exists g.
  - destruct g as [|c' g]; [right; now exists (String c f)|].
    simpl in Hg. injection Hg as <- Hg.
    destruct (IH g r r' Hg) as [[x ->]|[x ->]]; [left | right]; now exists x.
Qed.

Lemma prefix_free_head (f d : string) (l : list string) :
  forallb (fun g => negb (startswith g f) && negb (startswith f g)) l = true ->
  startswith d f = true -> matching_entries l d = 0.
Proof.
  unfold matching_entries. induction l as [|g l IH]; intros Hall Hf; [reflexivity|].
  simpl in Hall. apply andb_true_iff in Hall as [Hg Hall].
  apply andb_true_iff in Hg as [Hg1 Hg2]. cbn [List.filter].
  destruct (startswith d g) eqn:Eg; [|now apply IH].
  destruct (startswith_comparable d f g Hf Eg) as [H|H]; rewrite H in *; discriminate.
Qed.

Lemma matching_entries_cons (f d : string) (l : list string) :
  matching_entries (f :: l) d =
  (if startswith d f then 1 else 0) + matching_entries l d.
Proof. unfold matching_entries. cbn [List.filter]. now destruct (startswith d f). Qed.

Lemma prefix_free_matching (filenames : list string) (d : string) :
  prefix_free filenames = true ->
  matching_entries filenames d = if allowed filenames d then 1 else 0.
Proof.
  unfold allowed. induction filenames as [|f l IH]; intros H; [reflexivity|].
  cbn [prefix_free] in H. apply andb_true_iff in H as [Hf Hl].
  rewrite matching_entries_cons. cbn [existsb].
  destruct (startswith d f) eqn:E.
  - cbn [orb]. now rewrite (prefix_free_head f d l Hf E).
  - cbn [orb]. now apply IH.
Qed.

(** X4: when no allowlist entry is a prefix of another, the splitter is a
    plain filter: it returns, in the order of the diff text and once each,
    the chunks whose text after the delimiter starts with an allowlist
    entry. *)
Theorem fetch_diffs_prefix_free (diffs delimiter : string) (filenames : list string) :
  delimiter <> EmptyString -> filenames <> [] -> prefix_free filenames = true ->
  exists pieces,
    split diffs delimiter = Ok pieces /\
    fetch_diffs diffs filenames delimiter =
      Ok (map (fun diff => delimiter +:+ diff) (List.filter (allowed filenames) pieces)).
Proof.
  intros Hd Hne Hpf. unfold fetch_diffs. rewrite (split_Ok _ _ Hd).
  eexists; split; [reflexivity|].
  destruct filenames as [|f0 fs]; [congruence|]. f_equal.
  rewrite (flat_map_ext _ _ (fun d => copies_per_piece delimiter d (f0 :: fs))).
  induction (split_fuel (String.length diffs) delimiter diffs) as [|d l IH]; [reflexivity|].
  cbn [flat_map List.filter]. rewrite IH, (prefix_free_matching _ d Hpf).
  now destruct (allowed (f0 :: fs) d).
Qed.

Lemma fetch_diffs_prefix_free_witness :
  exists pieces,
    split diff_of_a_b DIFF_DELIMITER = Ok pieces /\
    fetch_diffs diff_of_a_b ["b.py"; "a.py"] DIFF_DELIMITER =
      Ok (map (fun diff => DIFF_DELIMITER +:+ diff)
            (List.filter (allowed ["b.py"; "a.py"]) pieces)).
Proof.
  apply (fetch_diffs_prefix_free diff_of_a_b DIFF_DELIMITER ["b.py"; "a.py"]);
    [discriminate | discriminate | reflexivity].
Defined.

(** ** The filename extractor *)

Lemma lazy_star_None (k : Re.cclass) (R : string -> option (list string)) (s : string) :
  Re.lazy_star k R s = None ->
  forall g t, s = g +:+ t -> all_accept k g = true -> R t = None.
Proof.
  induction s as [|c s IH]; intros H g t Hs Hacc; cbn [Re.lazy_star] in H.
  - destruct g, t; try discriminate. now destruct (R EmptyString).
  - destruct (R (String c s)) eqn:HR; [discriminate|].
    destruct g as [|c' g]; [simpl in Hs; now subst t|].
    simpl in Hs. injection Hs as <- ->. simpl in Hacc.
    apply andb_true_iff in Hacc as [Hc Hacc]. rewrite Hc in H.
    destruct (Re.lazy_star k R (g +:+ t)) as [[? ?]|] eqn:E; [discriminate|].
    now apply (IH eq_refl g t).
Qed.

Lemma lazy_star_Some (k : Re.cclass) (R : string -> option (list string))
    (s g : string) (gs : list string) :
  Re.lazy_star k R s = Some (g, gs) ->
  exists t,
    s = g +:+ t /\ all_accept k g = true /\ R t = Some gs /\
    forall g' t', s = g' +:+ t' -> String.length g' < String.length g -> R t' = None.
Proof.
  revert g; induction s as [|c s IH]; intros g H; cbn [Re.lazy_star] in H.
  - destruct (R EmptyString) eqn:HR; [|discriminate]. injection H as <- <-.
    exists EmptyString. repeat split; [assumption|]. simpl. lia.
  - destruct (R (String c s)) eqn:HR.
    + injection H as <- <-. exists (String c s). repeat split; [assumption|]. simpl. lia.
    + destruct (Re.accepts k c) eqn:Hc; [|discriminate].
      destruct (Re.lazy_star k R s) as [[g0 gs0]|] eqn:E; [|discriminate].
      injection H as <- <-. destruct (IH g0 eq_refl) as (t & -> & Hacc & HRt & Hmin).
      exists t. repeat split; [simpl; now rewrite Hc | assumption |].
      intros g' t' Hs HL. destruct g' as [|c' g'].
      * simpl in Hs. now subst t'.
      * simpl in Hs. injection Hs as _ Hs. simpl in HL. apply (Hmin g' t' Hs). lia.
Qed.

Lemma re_search_Some (p : Re.pattern) (s : string) (gs : list string) :
  Re.re_search p s = Some gs -> exists pre t, s = pre +:+ t /\ Re.match_here p t = Some gs.
Proof.
  induction s as [|c s IH]; cbn [Re.re_search]; intros H.
  - destruct (Re.match_here p EmptyString) eqn:E; [|discriminate]. injection H as <-.
    now exists EmptyString, EmptyString.
  - destruct (Re.match_here p (String c s)) eqn:E.
    + injection H as <-. now exists EmptyString, (String c s).
    + destruct (IH H) as (pre & t & -> & Ht). now exists (String c pre), t.
Qed.

Lemma re_search_None (p : Re.pattern) (s : string) :
  Re.re_search p s = None -> forall pre t, s = pre +:+ t -> Re.match_here p t = None.
Proof.
  induction s as [|c s IH]; cbn [Re.re_search]; intros H pre t Hs.
  - destruct pre, t; try discriminate. now destruct (Re.match_here p EmptyString).
  - destruct (Re.match_here p (String c s)) eqn:E; [discriminate|].
    destruct pre as [|c' pre]; [simpl in Hs; now subst t|].
    simpl in Hs. injection Hs as _ ->. now apply (IH H pre t).
Qed.

Lemma match_pattern_filename (t : string) :
  Re.match_here pattern_filename t =
    match strip_prefix "a/" t with
    | Some t1 =>
        match Re.lazy_star Re.Dot space_b_slash t1 with
        | Some (g, gs) => Some (g :: gs)
        | None => None
        end
    | None => None
    end.
Proof.
  destruct t as [|c1 [|c2 t1]]; try reflexivity;
    unfold pattern_filename; cbn [Re.match_here Re.accepts strip_prefix].
  - now destruct (Ascii.eqb "a" c1).
  - destruct (Ascii.eqb "a" c1); [|reflexivity]. now destruct (Ascii.eqb "/" c2).
Qed.

Lemma space_b_slash_Some (t : string) (gs : list string) :
  space_b_slash t = Some gs <-> gs = [] /\ exists post, t = " b/" +:+ post.
Proof.
  rewrite space_b_slash_strip. destruct (strip_prefix " b/" t) as [post|] eqn:E.
  - apply strip_prefix_Some in E. split.
    + intros [= <-]. split; [reflexivity | now exists post].
    + now intros [-> _].
  - split; [discriminate|]. intros [_ [post ->]]. now rewrite strip_prefix_app in E.
Qed.

Lemma search_filename_Some (chunk name : string) :
  search_filename chunk = Some name ->
  exists pre post,
    chunk = pre +:+ "a/" +:+ name +:+ " b/" +:+ post /\
    no_newline name = true /\ contains name " b/" = false.
Proof.
  unfold search_filename.
  destruct (Re.re_search pattern_filename chunk) as [[|g gs]|] eqn:E; try discriminate.
  intros [= ->]. apply re_search_Some in E as (pre & t & -> & Ht).
  rewrite match_pattern_filename in Ht.
  destruct (strip_prefix "a/" t) as [t1|] eqn:Et; [|discriminate].
  apply strip_prefix_Some in Et. subst t.
  destruct (Re.lazy_star Re.Dot space_b_slash t1) as [[g gs']|] eqn:El; [|discriminate].
  injection Ht as -> ->. apply lazy_star_Some in El as (t & -> & Hacc & HR & Hmin).
  apply space_b_slash_Some in HR as (-> & post & ->).
  exists pre, post. split; [reflexivity|]. split; [now rewrite <- all_accept_dot|].
  unfold contains. rewrite (cut_None_intro " b/" name); [reflexivity|].
  intros u v ->. destruct (strip_prefix " b/" v) as [r|] eqn:Ev; [|reflexivity].
  apply strip_prefix_Some in Ev. subst v.
  assert (HN : space_b_slash ((" b/" +:+ r) +:+ " b/" +:+ post) = None).
  { apply (Hmin u); [now rewrite append_assoc|]. rewrite append_length. simpl. lia. }
  rewrite space_b_slash_strip in HN. discriminate HN.
Qed.

Lemma search_filename_None (chunk : string) :
  search_filename chunk = None <->
  forall pre name post, chunk = pre +:+ "a/" +:+ name +:+ " b/" +:+ post ->
                        no_newline name = false.
Proof.
  split.
  - intros H pre name post ->. destruct (no_newline name) eqn:Hnl; [|reflexivity].
    exfalso. unfold search_filename in H.
    destruct (Re.re_search pattern_filename (pre +:+ "a/" +:+ name +:+ " b/" +:+ post))
      as [[|g gs]|] eqn:E; try discriminate.
    + apply re_search_Some in E as (p & t & _ & Ht). rewrite match_pattern_filename in Ht.
      destruct (strip_prefix "a/" t); [|discriminate].
      destruct (Re.lazy_star Re.Dot space_b_slash s) as [[? ?]|]; discriminate.
    + pose proof (re_search_None _ _ E pre _ eq_refl) as Ht.
      rewrite match_pattern_filename in Ht.
      change ("a/" +:+ name +:+ " b/" +:+ post) with ("a/" +:+ (name +:+ " b/" +:+ post)) in Ht.
      rewrite strip_prefix_app in Ht.
      destruct (Re.lazy_star Re.Dot space_b_slash (name +:+ " b/" +:+ post))
        as [[? ?]|] eqn:El; [discriminate|].
      rewrite <- all_accept_dot in Hnl.
      pose proof (lazy_star_None _ _ _ El name _ eq_refl Hnl) as HR.
      rewrite space_b_slash_strip in HR. discriminate HR.
  - intros H. destruct (search_filename chunk) as [name|] eqn:E; [|reflexivity].
    apply search_filename_Some in E as (pre & post & -> & Hnl & _).
    rewrite (H pre name post eq_refl) in Hnl. discriminate.
Qed.

(** X5: every filename the extractor returns is read from one of the
    chunks, between an [a/] and the [ b/] that follows; it holds no line feed
    and no [ b/]. A chunk gives no filename exactly when it has no [a/] with a
    [ b/] after it on the same line. There are at most as many filenames as
    chunks. *)
Theorem get_files_with_diffs_sound (chunks : list string) :
  (forall name,
     In name (get_files_with_diffs chunks) ->
     exists chunk pre post,
       In chunk chunks /\ chunk = pre +:+ "a/" +:+ name +:+ " b/" +:+ post /\
       no_newline name = true /\ contains name " b/" = false) /\
  (forall chunk,
     search_filename chunk = None <->
     forall pre name post, chunk = pre +:+ "a/" +:+ name +:+ " b/" +:+ post ->
                           no_newline name = false) /\
  length (get_files_with_diffs chunks) <= length chunks.
Proof.
  split; [|split; [exact search_filename_None|]].
  - intros name Hin. unfold get_files_with_diffs in Hin.
    apply in_flat_map in Hin as (chunk & Hc & Hin).
    destruct (search_filename chunk) as [n|] eqn:E; [|destruct Hin].
    destruct Hin as [<-|[]]. apply search_filename_Some in E as (pre & post & H).
    now exists chunk, pre, post.
  - unfold get_files_with_diffs. induction chunks as [|c l IH]; [simpl; lia|].
    cbn [flat_map]. rewrite length_app. destruct (search_filename c); simpl; lia.
Qed.

Lemma get_files_with_diffs_sound_witness :
  exists chunk pre post,
    In chunk ["diff --git a/old name.py b/new.py"] /\
    chunk = pre +:+ "a/" +:+ "old name.py" +:+ " b/" +:+ post /\
    no_newline "old name.py" = true /\ contains "old name.py" " b/" = false.
Proof.
  apply (proj1 (get_files_with_diffs_sound ["diff --git a/old name.py b/new.py"])).
  left. reflexivity.
Defined.

(** ** Token accounting *)

Lemma sum_Z_app (a b : list Z) : sum_Z (a ++ b) = (sum_Z a + sum_Z b)%Z.
Proof. unfold sum_Z. induction a as [|x a IH]; simpl; [reflexivity | lia]. Qed.

Lemma tokens_of_message_closed (W : World) (self : CodeReviewPipe) (f : string -> Z)
    (message : list (string * string)) :
  (forall value, In value (map snd message) -> encode_len W (model self) value = Ok (f value)) ->
  forall n,
    tokens_of_message W self message n =
      Ok (n + sum_Z (map f (map snd message)) - Z.of_nat (name_keys [message]))%Z.
Proof.
  unfold name_keys. cbn [List.concat]. rewrite app_nil_r.
  induction message as [|[key value] message IH]; intros H n.
  - simpl. f_equal. lia.
  - cbn [tokens_of_message]. rewrite (H value) by now left.
    rewrite IH by (intros v Hv; apply H; now right).
    cbn [map snd fst List.filter sum_Z fold_right]. fold (sum_Z (map f (map snd message))).
    destruct (String.eqb key "name"); cbn [length]; f_equal; lia.
Qed.

Lemma name_keys_cons (message : list (string * string))
    (messages : list (list (string * string))) :
  name_keys (message :: messages) = name_keys [message] + name_keys messages.
Proof.
  unfold name_keys. cbn [List.concat]. now rewrite app_nil_r, List.filter_app, length_app.
Qed.

Lemma tokens_of_messages_closed (W : World) (self : CodeReviewPipe) (f : string -> Z)
    (messages : list (list (string * string))) :
  (forall value, In value (message_values messages) ->
                 encode_len W (model self) value = Ok (f value)) ->
  forall n,
    tokens_of_messages W self messages n =
      Ok (n + 4 * Z.of_nat (length messages) + sum_Z (map f (message_values messages))
          - Z.of_nat (name_keys messages))%Z.
Proof.
  induction messages as [|message messages IH]; intros H n.
  - simpl. f_equal. unfold name_keys. simpl. lia.
  - cbn [tokens_of_messages].
    rewrite (tokens_of_message_closed W self f message)
      by (intros v Hv; apply H; unfold message_values; cbn [flat_map]; apply in_app_iff; now left).
    rewrite IH
      by (intros v Hv; apply H; unfold message_values; cbn [flat_map]; apply in_app_iff; now right).
    f_equal. rewrite (name_keys_cons message messages). unfold message_values.
    cbn [flat_map length].
    rewrite map_app, sum_Z_app. lia.
Qed.

Lemma tokens_of_message_Ok (W : World) (self : CodeReviewPipe)
    (message : list (string * string)) :
  forall n r, tokens_of_message W self message n = Ok r ->
              forall value, In value (map snd message) ->
                            exists k, encode_len W (model self) value = Ok k.
Proof.
  induction message as [|[key value] message IH]; intros n r H v Hv; [destruct Hv|].
  cbn [tokens_of_message] in H.
  destruct (encode_len W (model self) value) as [k|e] eqn:E; [|discriminate].
  destruct Hv as [<-|Hv]; [now exists k|]. now apply (IH _ _ H).
Qed.

Lemma tokens_of_messages_Ok (W : World) (self : CodeReviewPipe)
    (messages : list (list (string * string))) :
  forall n r, tokens_of_messages W self messages n = Ok r ->
              forall value, In value (message_values messages) ->
                            exists k, encode_len W (model self) value = Ok k.
Proof.
  induction messages as [|message messages IH]; intros n r H v Hv; [destruct Hv|].
  cbn [tokens_of_messages] in H.
  destruct (tokens_of_message W self message (n + 4)) as [m|e] eqn:E; [|discriminate].
  unfold message_values in Hv. cbn [flat_map] in Hv. apply in_app_iff in Hv as [Hv|Hv].
  - now apply (tokens_of_message_Ok W self message _ _ E).
  - now apply (IH _ _ H).
Qed.

(** X6: the token count of a message sequence is 2, plus 4 for each message,
    plus the encoded length of every value, minus 1 for each key [name]; it
    is returned only if every value can be encoded. *)
Theorem num_tokens_closed_form (W : World) (self : CodeReviewPipe)
    (messages : list (list (string * string))) :
  (forall f : string -> Z,
     (forall value, In value (message_values messages) ->
                    encode_len W (model self) value = Ok (f value)) ->
     num_tokens_from_messages W self messages =
       Ok (2 + 4 * Z.of_nat (length messages) + sum_Z (map f (message_values messages))
           - Z.of_nat (name_keys messages))%Z) /\
  (forall num_tokens,
     num_tokens_from_messages W self messages = Ok num_tokens ->
     forall value, In value (message_values messages) ->
                   exists k, encode_len W (model self) value = Ok k).
Proof.
  split.
  - intros f H. unfold num_tokens_from_messages.
    rewrite (tokens_of_messages_closed W self f messages H). f_equal. lia.
  - intros n H. unfold num_tokens_from_messages in H.
    destruct (tokens_of_messages W self messages 0) as [m|e] eqn:E; [|discriminate].
    now apply (tokens_of_messages_Ok W self messages _ _ E).
Qed.

Lemma num_tokens_closed_form_witness :
  num_tokens_from_messages world_over_token_limit sample_pipe
    [[("role", "user"); ("name", "reviewer"); ("content", "hello")]; [("role", "system")]]
  = Ok (2 + 4 * 2 + (1 + 2494 + 2494 + 1) - 1)%Z.
Proof.
  apply (proj1 (num_tokens_closed_form world_over_token_limit sample_pipe
                  [[("role", "user"); ("name", "reviewer"); ("content", "hello")];
                   [("role", "system")]])
           (fun text => if String.eqb text "system" || String.eqb text "user"
                        then 1 else 2494)%Z).
  intros value _. reflexivity.
Defined.

(** ** Parameters from a YAML file *)

Module PyDictFacts.

Lemma lookup_set (key k : string) (v : json) (d : list (string * json)) :
  Py.lookup key (PyDict.set k v d) = if String.eqb k key then Some v else Py.lookup key d.
Proof.
  induction d as [|[k0 w] d IH]; [reflexivity|]. cbn [PyDict.set].
  destruct (String.eqb_spec k0 k) as [->|Hk0]; cbn [Py.lookup].
  - now destruct (String.eqb k key).
  - rewrite IH. destruct (String.eqb_spec k0 key) as [->|]; [|reflexivity].
    destruct (String.eqb_spec k key); [congruence | reflexivity].
Qed.

Lemma keys_set (k : string) (v : json) (d : list (string * json)) :
  map fst (PyDict.set k v d) =
  if PyDict.has_key k d then map fst d else map fst d ++ [k].
Proof.
  unfold PyDict.has_key. induction d as [|[k0 w] d IH]; [reflexivity|].
  cbn [PyDict.set Py.lookup]. destruct (String.eqb_spec k0 k) as [->|Hk0]; [reflexivity|].
  cbn [map fst]. rewrite IH. now destruct (Py.lookup k d).
Qed.

Lemma lookup_None (key : string) (d : list (string * json)) :
  Py.lookup key d = None <-> ~ In key (map fst d).
Proof.
  induction d as [|[k0 w] d IH]; [simpl; tauto|]. cbn [Py.lookup map fst In].
  destruct (String.eqb_spec k0 key) as [->|Hne]; [split; [discriminate | tauto]|].
  rewrite IH. tauto.
Qed.

Lemma lookup_update (key : string) (other d : list (string * json)) :
  List.NoDup (map fst other) ->
  Py.lookup key (PyDict.update d other) =
    match Py.lookup key other with
    | Some v => Some v
    | None => Py.lookup key d
    end.
Proof.
  unfold PyDict.update. revert d; induction other as [|[k0 v0] other IH]; intros d Hnd;
    [reflexivity|].
  cbn [fold_left fst snd]. cbn [map fst] in Hnd. apply List.NoDup_cons_iff in Hnd as [Hk0 Hnd].
  rewrite (IH _ Hnd), lookup_set. cbn [Py.lookup].
  destruct (String.eqb_spec k0 key) as [->|]; [|reflexivity].
  apply lookup_None in Hk0. now rewrite Hk0.
Qed.

Lemma keys_update (other d : list (string * json)) :
  exists added, map fst (PyDict.update d other) = map fst d ++ added /\
                (List.NoDup (map fst d) -> List.NoDup (map fst d ++ added)).
Proof.
  unfold PyDict.update. revert d; induction other as [|[k0 v0] other IH]; intros d.
  - exists []. rewrite app_nil_r. auto.
  - cbn [fold_left fst snd]. destruct (IH (PyDict.set k0 v0 d)) as (added & Hk & Hnd).
    rewrite keys_set in Hk, Hnd. unfold PyDict.has_key in *.
    destruct (Py.lookup k0 d) eqn:E.
    + now exists added.
    + exists (k0 :: added). rewrite <- app_assoc in Hk, Hnd. cbn [app] in Hk, Hnd.
      split; [assumption|]. intros H. apply Hnd.
      apply List.NoDup_app; [assumption | constructor; [intros [] | constructor] |].
      intros x Hx [<-|[]]. now apply lookup_None in E.
Qed.

End PyDictFacts.

(** X7: the parameters of a YAML file that holds a mapping override the
    defaults key by key; a default the file does not mention keeps its value
    and every default keeps its place, keys staying unique. The file is read
    before the log record; no file is read when the path is unset or empty,
    and a file that cannot be loaded raises after the read, without the log
    record. *)
Theorem with_yaml_merge (W : World) (template : string) (params : list (string * json))
    (tr : list event) :
  (forall filepath other,
     filepath <> EmptyString -> load_yaml W filepath = Ok (JObj other) ->
     List.NoDup (map fst other) ->
     exists merged added,
       with_yaml W (Some filepath) template params tr
       = (Ok merged, tr ++ [ReadYaml filepath; Log INFO template]) /\
       (forall key,
          Py.lookup key merged =
            match Py.lookup key other with
            | Some v => Some v
            | None => Py.lookup key params
            end) /\
       map fst merged = map fst params ++ added /\
       (List.NoDup (map fst params) -> List.NoDup (map fst merged))) /\
  (forall file, file = None \/ file = Some EmptyString ->
                with_yaml W file template params tr = (Ok params, tr)) /\
  (forall filepath e,
     filepath <> EmptyString -> load_yaml W filepath = Raise e ->
     with_yaml W (Some filepath) template params tr = (Raise e, tr ++ [ReadYaml filepath])).
Proof.
  split; [|split].
  - intros filepath other Hp Hload Hnd. destruct filepath as [|c p]; [congruence|].
    destruct (PyDictFacts.keys_update other params) as (added & Hk & Hnd').
    exists (PyDict.update params other), added. unfold with_yaml. munfold.
    rewrite Hload. rewrite <- app_assoc. split; [reflexivity|].
    split; [intros key; now apply PyDictFacts.lookup_update|].
    split; [assumption|]. rewrite Hk. exact Hnd'.
  - now intros file [-> | ->].
  - intros filepath e Hp Hload. destruct filepath as [|c p]; [congruence|].
    unfold with_yaml. munfold. now rewrite Hload.
Qed.

Lemma with_yaml_merge_witness :
  exists merged added,
    with_yaml world_with_yaml (Some "completion.yml") "parameters"
      [("model", JStr "gpt-4o"); ("messages", JArr [])] []
    = (Ok merged, [] ++ [ReadYaml "completion.yml"; Log INFO "parameters"]) /\
    (forall key,
       Py.lookup key merged =
         match Py.lookup key [("temperature", JInt 0); ("model", JStr "gpt-4")] with
         | Some v => Some v
         | None => Py.lookup key [("model", JStr "gpt-4o"); ("messages", JArr [])]
         end) /\
    map fst merged = map fst [("model", JStr "gpt-4o"); ("messages", JArr [])] ++ added /\
    (List.NoDup (map fst [("model", JStr "gpt-4o"); ("messages", JArr [])]) ->
     List.NoDup (map fst merged)).
Proof.
  apply (proj1 (with_yaml_merge world_with_yaml "parameters"
                  [("model", JStr "gpt-4o"); ("messages", JArr [])] [])
           "completion.yml" [("temperature", JInt 0); ("model", JStr "gpt-4")]).
  - discriminate.
  - reflexivity.
  - simpl. constructor; [intros [H|[]]; discriminate H|].
    constructor; [intros []|]. constructor.
Defined.

(** ** The comment publisher, whatever the sink answers *)

Lemma len_raises (content : json) (e : exn) : Py.len content = Raise e -> e = TypeError.
Proof. destruct content; simpl; congruence. Qed.

Section PublisherTrace.

Variable W : World.
Variable self : CodeReviewPipe.
Variable pull_request_id : string.

(** What the loop has sent, however it ends: the comments of a prefix of
    the entries; all of them when it returns, [int] having taken every line;
    when it raises, a feedback without length was met, or a line with more
    digits than [int] takes, or the sink refused the last request. *)
Lemma add_comments_loop_trace (items : list (string * json)) :
  forall files counter tr r tr',
    add_comments_loop W self pull_request_id items files counter tr = (r, tr') ->
    exists cs,
      tr' = tr ++ map (inline_comment self pull_request_id) cs /\ cs `prefix_of` planned_comments items /\
      match r with
      | Ok (files', counter') =>
          cs = planned_comments items /\
          counter' = (counter + Z.of_nat (length cs))%Z /\
          files' = files ++ map (fun c => fst (fst c)) cs /\
          forall key content path line n,
            In (key, content) items -> match_filename_line key = Some (path, line) ->
            Py.len content = Ok (S n) -> exists to, Py.int line = Ok to
      | Raise e =>
          (e = TypeError /\
           exists key content path line,
             In (key, content) items /\ match_filename_line key = Some (path, line) /\
             Py.len content = Raise TypeError) \/
          (e = ValueError /\
           exists key content path line n,
             In (key, content) items /\ match_filename_line key = Some (path, line) /\
             Py.len content = Ok (S n) /\ Py.int_max_str_digits < String.length line) \/
          exists cs0 c,
            cs = cs0 ++ [c] /\
            http_post W (tr ++ map (inline_comment self pull_request_id) cs0)
              (pull_request_url self pull_request_id "comments") (auth_method_bitbucket self)
              (inline_payload (fst (fst c)) (snd (fst c)) (snd c)) = Raise e
      end.
Proof.
  induction items as [|[key content] items IH]; intros files counter tr r tr' H.
  - injection H as <- <-. exists []. simpl. rewrite !app_nil_r, Z.add_0_r.
    repeat split; [apply prefix_nil | intros ? ? ? ? ? []].
  - unfold planned_comments. cbn [omap list_omap]. fold (planned_comments items).
    unfold comment_of_entry. cbn [fst snd].
    destruct (match_filename_line key) as [[filename line]|] eqn:Hm.
    2:{ rewrite add_comments_loop_skip in H by now left.
        apply IH in H as (cs & Htr & Hpre & Hr). exists cs.
        split; [assumption|]. split; [assumption|].
        destruct r as [[files' counter']|e].
        - destruct Hr as (H1 & H2 & H3 & H4). repeat split; try assumption.
          intros k c p l n [[= <- <-]|Hin] Hk Hc; [congruence | now apply (H4 k c p l n)].
        - destruct Hr as [(-> & k & c & p & l & Hin & Hk & Hc)
                         |[(-> & k & c & p & l & n & Hin & Hk & Hc & Hlt)|Hr]].
          + left. split; [reflexivity|]. exists k, c, p, l. split; [now right | now split].
          + right; left. split; [reflexivity|]. exists k, c, p, l, n.
            split; [now right | now repeat split].
          + now right; right. }
    destruct (Py.len content) as [[|n]|e] eqn:Hl.
    + rewrite add_comments_loop_skip in H by now right.
      apply IH in H as (cs & Htr & Hpre & Hr). exists cs.
      split; [assumption|]. split; [assumption|].
      destruct r as [[files' counter']|e].
      * destruct Hr as (H1 & H2 & H3 & H4). repeat split; try assumption.
        intros k c p l n [[= <- <-]|Hin] Hk Hc; [congruence | now apply (H4 k c p l n)].
      * destruct Hr as [(-> & k & c & p & l & Hin & Hk & Hc)
                       |[(-> & k & c & p & l & n & Hin & Hk & Hc & Hlt)|Hr]].
        -- left. split; [reflexivity|]. exists k, c, p, l. split; [now right | now split].
        -- right; left. split; [reflexivity|]. exists k, c, p, l, n.
           split; [now right | now repeat split].
        -- now right; right.
    + destruct (Py.int line) as [to|e] eqn:Hi.
      * rewrite (add_comments_loop_publish W self pull_request_id key filename line content n
                   to items files counter tr Hm Hl Hi) in H.
        cbv zeta in H.
        destruct (http_post W tr _ (auth_method_bitbucket self) _) as [[]|e] eqn:Hp.
        -- apply IH in H as (cs & -> & Hpre & Hr). exists ((filename, to, content) :: cs).
           cbn [map]. rewrite <- app_assoc. cbn [app].
           split; [reflexivity|]. split; [now apply prefix_cons|].
           destruct r as [[files' counter']|e].
           ++ destruct Hr as (-> & -> & -> & H4). rewrite <- app_assoc. cbn [length app fst].
              repeat split; [lia|].
              intros k c p l m [[= <- <-]|Hin] Hk Hc; [|now apply (H4 k c p l m)].
              rewrite Hm in Hk. injection Hk as <- <-. now exists to.
           ++ destruct Hr as [(-> & k & c & p & l & Hin & Hk & Hc)
                             |[(-> & k & c & p & l & m & Hin & Hk & Hc & Hlt)
                              |(cs0 & c & -> & Hc)]].
              ** left. split; [reflexivity|]. exists k, c, p, l. split; [now right | now split].
              ** right; left. split; [reflexivity|]. exists k, c, p, l, m.
                 split; [now right | now repeat split].
              ** right; right. exists ((filename, to, content) :: cs0), c.
                 split; [reflexivity|]. cbn [map]. now rewrite <- app_assoc in Hc.
        -- injection H as <- <-. exists [(filename, to, content)]. split; [reflexivity|].
           split; [apply prefix_cons, prefix_nil|]. right; right.
           exists [], (filename, to, content). split; [reflexivity|].
           cbn [map fst snd]. now rewrite app_nil_r.
      * rewrite (add_comments_loop_int_raises W self pull_request_id key filename line content
                   n e items files counter tr Hm Hl Hi) in H.
        injection H as <- <-. exists []. simpl. rewrite app_nil_r.
        split; [reflexivity|]. split; [apply prefix_nil|].
        destruct (matched_line_raises _ _ _ _ Hm Hi) as [-> Hlt]. right; left.
        split; [reflexivity|]. exists key, content, filename, line, n.
        split; [now left | now repeat split].
    + cbn [add_comments_loop] in H. rewrite Hm in H. munfold_in H. rewrite Hl in H.
      injection H as <- <-. exists []. simpl. rewrite app_nil_r.
      split; [reflexivity|]. split; [apply prefix_nil|]. left.
      apply len_raises in Hl as Hx. subst e. split; [reflexivity|].
      exists key, content, filename, line. split; [now left | now split].
Qed.

End PublisherTrace.

(** The comment of an entry is well formed. *)
Lemma comment_of_entry_Some (entry : string * json) (path : string) (line : Z) (body : json) :
  comment_of_entry entry = Some (path, line, body) ->
  body = snd entry /\ path <> EmptyString /\ no_newline path = true /\ (0 <= line)%Z /\
  (exists n, Py.len body = Ok (S n)) /\
  exists digits, match_filename_line (fst entry) = Some (path, digits) /\
                 Py.int digits = Ok line.
Proof.
  unfold comment_of_entry.
  destruct (match_filename_line (fst entry)) as [[filename l]|] eqn:Hm; [|discriminate].
  destruct (Py.len (snd entry)) as [[|n]|e] eqn:Hl; try discriminate.
  destruct (Py.int l) as [to|e] eqn:Hi; [|discriminate]. intros [= <- <- <-].
  pose proof Hm as Hm'.
  apply match_filename_line_Some in Hm' as (rest & _ & Hp & Hnl & Hne & Hd & _).
  repeat split; try assumption.
  - destruct (matched_line_int _ _ _ Hm) as (to' & Hto & Hi'). rewrite Hi in Hi'.
    destruct (String.length l <=? Py.int_max_str_digits)%nat; [|discriminate].
    now injection Hi' as ->.
  - now exists n.
  - now exists l.
Qed.

(** X8: when the comment publisher returns, it has sent one inline comment
    for every entry whose key matches and whose feedback is not empty, in
    the order of the mapping and nothing else; each at the path and line of
    its key, with its feedback as body. *)
Theorem add_comments_publishes_all (W : World) (self : CodeReviewPipe) (pr : string)
    (items : list (string * json)) (tr tr' : list event) (files : gset string) (count : Z) :
  add_comments W self pr (JObj items) tr = (Ok (files, count), tr') ->
  tr' = tr ++ map (inline_comment self pr) (planned_comments items) /\
  count = Z.of_nat (length (planned_comments items)) /\
  (forall key content path line n,
     In (key, content) items -> match_filename_line key = Some (path, line) ->
     Py.len content = Ok (S n) ->
     exists to, Py.int line = Ok to /\
                In (inline_comment self pr (path, to, content)) tr') /\
  (forall c, In c (planned_comments items) ->
             exists key line, In (key, snd c) items /\
                              match_filename_line key = Some (fst (fst c), line) /\
                              Py.int line = Ok (snd (fst c))).
Proof.
  intros H. unfold add_comments in H. cbn [Py.items] in H. munfold_in H.
  destruct (add_comments_loop W self pr items [] 0%Z tr) as [[[fs n]|e] tr1] eqn:E;
    [|discriminate].
  injection H as <- <- <-.
  apply add_comments_loop_trace in E as (cs & -> & _ & -> & -> & _ & Hint).
  split; [reflexivity|]. split; [lia|]. split.
  - intros key content path line n Hin Hm Hl.
    destruct (Hint key content path line n Hin Hm Hl) as [to Hi].
    exists to. split; [assumption|].
    apply in_app_iff. right. apply in_map. unfold planned_comments.
    apply list_elem_of_In, list_elem_of_omap. exists (key, content).
    split; [now apply list_elem_of_In|]. unfold comment_of_entry. cbn [fst snd].
    now rewrite Hm, Hl, Hi.
  - intros [[path line] body] Hc. unfold planned_comments in Hc.
    apply list_elem_of_In, list_elem_of_omap in Hc as ([key content] & Hin & Hc).
    apply comment_of_entry_Some in Hc as (-> & _ & _ & _ & _ & digits & Hm & Hi).
    exists key, digits. cbn [fst snd] in *. split; [now apply list_elem_of_In | now split].
Qed.

Lemma add_comments_publishes_all_witness :
  [inline_comment sample_pipe "7" ("a.py", 1%Z, JStr "fix this");
   inline_comment sample_pipe "7" ("a.py", 30%Z, JStr "and this")]
  = [] ++ map (inline_comment sample_pipe "7")
            (planned_comments [("a.py:1", JStr "fix this"); ("b.py:2", JStr "");
                               ("README", JInt 4); ("a.py:30-32", JStr "and this")]).
Proof.
  apply (add_comments_publishes_all (world_with_reply review_m_py) sample_pipe "7"
           [("a.py:1", JStr "fix this"); ("b.py:2", JStr ""); ("README", JInt 4);
            ("a.py:30-32", JStr "and this")] [] _ {["a.py"]} 2%Z).
  vm_compute. reflexivity.
Defined.

(** X9: when the comment publisher raises, nothing is taken back and
    nothing more is sent: the trace has grown by the comments of the first
    entries of the mapping, in order. The exception is [AttributeError] when
    the suggestions are not a mapping (nothing is sent then); [TypeError]
    when a feedback under a matching key has no length; [ValueError] when
    the line of a matching key with a feedback has more than
    [int_max_str_digits] digits; or else what the sink answered to the last
    comment sent. *)
Theorem add_comments_failure (W : World) (self : CodeReviewPipe) (pr : string)
    (data : json) (tr tr' : list event) (e : exn) :
  add_comments W self pr data tr = (Raise e, tr') ->
  (forall items, data <> JObj items) /\ e = AttributeError /\ tr' = tr \/
  exists items cs,
    data = JObj items /\
    tr' = tr ++ map (inline_comment self pr) cs /\
    cs `prefix_of` planned_comments items /\
    ((e = TypeError /\
      exists key content path line,
        In (key, content) items /\ match_filename_line key = Some (path, line) /\
        Py.len content = Raise TypeError) \/
     (e = ValueError /\
      exists key content path line n,
        In (key, content) items /\ match_filename_line key = Some (path, line) /\
        Py.len content = Ok (S n) /\ Py.int_max_str_digits < String.length line) \/
     exists cs0 c,
       cs = cs0 ++ [c] /\
       http_post W (tr ++ map (inline_comment self pr) cs0)
         (pull_request_url self pr "comments") (auth_method_bitbucket self)
         (inline_payload (fst (fst c)) (snd (fst c)) (snd c)) = Raise e).
Proof.
  intros H. unfold add_comments in H. destruct data as [| | | | | |items];
    try (left; injection H as <- <-; repeat split; discriminate).
  right. cbn [Py.items] in H. munfold_in H.
  destruct (add_comments_loop W self pr items [] 0%Z tr) as [[[fs n]|e'] tr1] eqn:E;
    [discriminate|].
  injection H as <- <-. apply add_comments_loop_trace in E as (cs & -> & Hpre & Hr).
  exists items, cs. split; [reflexivity|]. split; [reflexivity|]. split; assumption.
Qed.

Lemma add_comments_failure_witness :
  (forall items,
     JObj [("a.py:1", JStr "fix this"); ("b.py:2", JStr "and this");
           ("c.py:3", JStr "and that")] <> JObj items) /\
  HTTPError = AttributeError /\
  [inline_comment sample_pipe "7" ("a.py", 1%Z, JStr "fix this");
   inline_comment sample_pipe "7" ("b.py", 2%Z, JStr "and this")] = [] \/
  exists items cs,
    JObj [("a.py:1", JStr "fix this"); ("b.py:2", JStr "and this");
          ("c.py:3", JStr "and that")] = JObj items /\
    [inline_comment sample_pipe "7" ("a.py", 1%Z, JStr "fix this");
     inline_comment sample_pipe "7" ("b.py", 2%Z, JStr "and this")]
    = [] ++ map (inline_comment sample_pipe "7") cs /\
    cs `prefix_of` planned_comments items /\
    ((HTTPError = TypeError /\
      exists key content path line,
        In (key, content) items /\ match_filename_line key = Some (path, line) /\
        Py.len content = Raise TypeError) \/
     (HTTPError = ValueError /\
      exists key content path line n,
        In (key, content) items /\ match_filename_line key = Some (path, line) /\
        Py.len content = Ok (S n) /\ Py.int_max_str_digits < String.length line) \/
     exists cs0 c,
       cs = cs0 ++ [c] /\
       http_post world_with_full_sink ([] ++ map (inline_comment sample_pipe "7") cs0)
         (pull_request_url sample_pipe "7" "comments") (auth_method_bitbucket sample_pipe)
         (inline_payload (fst (fst c)) (snd (fst c)) (snd c)) = Raise HTTPError).
Proof.
  apply (add_comments_failure world_with_full_sink sample_pipe "7"
           (JObj [("a.py:1", JStr "fix this"); ("b.py:2", JStr "and this");
                  ("c.py:3", JStr "and that")])
           []
           [inline_comment sample_pipe "7" ("a.py", 1%Z, JStr "fix this");
            inline_comment sample_pipe "7" ("b.py", 2%Z, JStr "and this")]
           HTTPError).
  vm_compute. reflexivity.
Defined.

(** A key whose line has 4301 digits, with a feedback: the publisher raises
    [ValueError] and sends nothing. *)
Lemma add_comments_long_line :
  option_map (fun m => (fst m, String.length (snd m)))
    (match_filename_line (key_of_digits 4300)) = Some ("a.py", 4301) /\
  add_comments (world_with_reply review_m_py) sample_pipe "7"
    (JObj [(key_of_digits 4300, JStr "fix this")]) []
  = (Raise ValueError, []).
Proof. split; vm_compute; reflexivity. Qed.

(** X10: whatever the comment publisher ends with, every request it has
    sent is an inline comment with a non-empty path without line feed, a
    line that is not negative and a feedback of positive length. *)
Theorem add_comments_well_formed (W : World) (self : CodeReviewPipe) (pr : string)
    (data : json) (tr tr' : list event) (r : result (gset string * Z)) :
  add_comments W self pr data tr = (r, tr') ->
  exists cs,
    tr' = tr ++ map (inline_comment self pr) cs /\
    Forall (fun c =>
              fst (fst c) <> EmptyString /\ no_newline (fst (fst c)) = true /\
              (0 <= snd (fst c))%Z /\ exists n, Py.len (snd c) = Ok (S n)) cs.
Proof.
  intros H. unfold add_comments in H. destruct data as [| | | | | |items];
    try (injection H as <- <-; exists []; simpl; now rewrite app_nil_r).
  cbn [Py.items] in H. munfold_in H.
  destruct (add_comments_loop W self pr items [] 0%Z tr) as [r1 tr1] eqn:E.
  assert (tr' = tr1) as -> by (destruct r1 as [[fs n]|e1]; now injection H).
  apply add_comments_loop_trace in E as (cs & -> & [k Hpre] & _).
  exists cs. split; [reflexivity|]. apply List.Forall_forall. intros [[path line] body] Hin.
  assert (Hp : In (path, line, body) (planned_comments items)).
  { rewrite Hpre. apply in_app_iff. now left. }
  unfold planned_comments in Hp.
  apply list_elem_of_In, list_elem_of_omap in Hp as (entry & _ & Hc).
  apply comment_of_entry_Some in Hc as (_ & H1 & H2 & H3 & H4 & _). cbn [fst snd].
  auto.
Qed.

Lemma add_comments_well_formed_witness :
  exists cs,
    [inline_comment sample_pipe "7" ("a.py", 0%Z, JStr "fix this")]
    = [] ++ map (inline_comment sample_pipe "7") cs /\
    Forall (fun c =>
              fst (fst c) <> EmptyString /\ no_newline (fst (fst c)) = true /\
              (0 <= snd (fst c))%Z /\ exists n, Py.len (snd c) = Ok (S n)) cs.
Proof.
  apply (add_comments_well_formed (world_with_reply review_m_py) sample_pipe "7"
           (JObj [("a.py:0", JStr "fix this"); ("b.py:2", JInt 3)]) [] _
           (Raise TypeError)).
  vm_compute. reflexivity.
Defined.

(** ** The calls of a run *)

Lemma network_app (a b : list event) : network (a ++ b) = network a ++ network b.
Proof. apply List.filter_app. Qed.

Lemma network_inline (self : CodeReviewPipe) (pr : string) (cs : list (string * Z * json)) :
  network (map (inline_comment self pr) cs) = map (inline_comment self pr) cs.
Proof. induction cs as [|c cs IH]; [reflexivity|]. cbn [map network List.filter is_network inline_comment]. unfold network in IH. now rewrite IH. Qed.

Lemma network_cons (ev : event) (tr : list event) :
  network (ev :: tr) = if is_network ev then ev :: network tr else network tr.
Proof. reflexivity. Qed.

Lemma network_nil : network [] = [].
Proof. reflexivity. Qed.

(** Compute the calls of a trace built from known events and traces whose
    calls are known. *)
Lemma network_local (ev : event) (tr : list event) :
  is_network ev = false -> network (ev :: tr) = network tr.
Proof. intros H. now rewrite network_cons, H. Qed.

Lemma network_call (ev : event) (tr : list event) :
  is_network ev = true -> network (ev :: tr) = ev :: network tr.
Proof. intros H. now rewrite network_cons, H. Qed.

Ltac net_simpl :=
  repeat first [rewrite network_app | rewrite network_inline | rewrite network_nil
               | rewrite (network_local _ _ eq_refl)
               | rewrite (network_call _ _ eq_refl)];
  cbn [app].

Lemma with_yaml_local (W : World) (file : option string) (template : string)
    (params : list (string * json)) (tr : list event) :
  exists ext, snd (with_yaml W file template params tr) = tr ++ ext /\ network ext = [].
Proof.
  unfold with_yaml. destruct file as [[|c p]|];
    try (exists []; simpl; now rewrite app_nil_r).
  munfold. destruct (load_yaml W (String c p)) as [users|e].
  - exists [ReadYaml (String c p); Log INFO template]. rewrite <- app_assoc.
    split; [|reflexivity].
    destruct users; try reflexivity;
      now destruct (update_from_iterable W params _).
  - now exists [ReadYaml (String c p)].
Qed.

Lemma new_ai_service_local (W : World) (params : list (string * json)) (tr : list event) :
  exists ext, snd (new_ai_service W params tr) = tr ++ ext /\ network ext = [].
Proof.
  unfold new_ai_service. destruct (PyDict.has_key "self" params).
  - exists []. simpl. now rewrite app_nil_r.
  - exists [NewClient params]. munfold. now destruct (new_client W params).
Qed.

Lemma get_diffs_to_review_sent (W : World) (self : CodeReviewPipe) (pr : string)
    (tr : list event) :
  snd (get_diffs_to_review W self pr tr)
  = tr ++ [HttpGet (pull_request_url self pr "diff") (auth_method_bitbucket self)].
Proof.
  unfold get_diffs_to_review, get_pull_request_diffs. munfold.
  destruct (http_get W _ (auth_method_bitbucket self)) as [text|e]; [|reflexivity].
  destruct (allowlist self) as [files|e]; [|reflexivity].
  now destruct (fetch_diffs text files DIFF_DELIMITER).
Qed.

Lemma add_comments_sent (W : World) (self : CodeReviewPipe) (pr : string) (data : json)
    (tr : list event) :
  exists cs, snd (add_comments W self pr data tr) = tr ++ map (inline_comment self pr) cs.
Proof.
  unfold add_comments. destruct data as [| | | | | |items];
    try (exists []; simpl; now rewrite app_nil_r).
  cbn [Py.items]. munfold.
  destruct (add_comments_loop W self pr items [] 0%Z tr) as [r1 tr1] eqn:E.
  apply add_comments_loop_trace in E as (cs & -> & _). exists cs.
  now destruct r1 as [[fs n]|e1].
Qed.

(** [get_code_review] calls the completion service at most once; when it
    returns without having called it, it returns [None]. *)
Lemma get_code_review_shape (W : World) (self : CodeReviewPipe) (diffs : list string)
    (tr : list event) :
  exists ext,
    snd (get_code_review W self diffs tr) = tr ++ ext /\
    ((network ext = [] /\
      forall v, fst (get_code_review W self diffs tr) = Ok v -> v = JNull) \/
     exists request, network ext = [CreateCompletion request]).
Proof.
  unfold get_code_review. cbv zeta. munfold.
  destruct (num_tokens_from_messages W self (review_messages W self diffs)) as [n|e].
  2:{ exists []. rewrite app_nil_r. split; [reflexivity|]. left. split; [reflexivity|].
      discriminate. }
  destruct (Py.int (default "0" (getenv W "CHATGPT_PROMPT_MAX_TOKENS"))) as [l|e].
  2:{ exists []. rewrite app_nil_r. split; [reflexivity|]. left. split; [reflexivity|].
      discriminate. }
  destruct (negb (l =? 0)%Z && (l <? n)%Z).
  { eexists. rewrite <- app_assoc. split; [reflexivity|]. left. split; [reflexivity|].
    cbn [fst]. now intros v [= <-]. }
  match goal with
  | |- context [with_yaml W ?f ?t ?p ?tr0] =>
      destruct (with_yaml_local W f t p tr0) as (ext & Hext & Hnet);
      destruct (with_yaml W f t p tr0) as [[params|e] tr1]
  end; cbn [snd] in Hext; subst tr1.
  2:{ eexists. rewrite <- app_assoc. split; [reflexivity|]. left.
      split; [|discriminate]. net_simpl. now rewrite Hnet. }
  unfold create_completion.
  destruct (PyDict.has_key "response_format" params || PyDict.has_key "self" params).
  { munfold. eexists. rewrite <- !app_assoc. split; [reflexivity|]. left.
    split; [|discriminate]. net_simpl. now rewrite Hnet. }
  match goal with
  | |- context [chat_completion W ?tr0 ?req] => destruct (chat_completion W tr0 req) as [raw|e]
  end.
  2:{ eexists. rewrite <- !app_assoc. split; [reflexivity|]. right. eexists.
      net_simpl. rewrite Hnet. reflexivity. }
  destruct (json_repair_loads W raw) as [v|e];
    (eexists; rewrite <- !app_assoc; split; [reflexivity|]; right; eexists;
     net_simpl; rewrite Hnet; reflexivity).
Qed.

(** What is left of [run] after [get_code_review]: nothing at all on [None];
    otherwise at most one summary comment, then inline comments. *)
Lemma publish_review_shape (W : World) (self : CodeReviewPipe) (pr : string) (v : json)
    (tr : list event) :
  exists ext,
    snd (publish_review W self pr v tr) = tr ++ ext /\
    (v = JNull -> ext = []) /\
    exists cs,
      network ext = map (inline_comment self pr) cs \/
      exists summary,
        network ext = summary_comment self pr summary :: map (inline_comment self pr) cs.
Proof.
  unfold publish_review. munfold.
  destruct (Py.get v "summary") as [summary|e] eqn:Hs.
  2:{ exists []. rewrite app_nil_r. split; [reflexivity|]. split; [reflexivity|].
      exists []. now left. }
  assert (Hv : v <> JNull) by (intros ->; discriminate).
  destruct (Py.get v "suggestions") as [suggestions|e].
  2:{ exists []. rewrite app_nil_r. split; [reflexivity|]. split; [reflexivity|].
      exists []. now left. }
  destruct (Py.truthy summary).
  - unfold add_summary, add_comment. cbv zeta.
    fold (summary_comment self pr summary).
    destruct (http_post W tr _ (auth_method_bitbucket self) _) as [[]|e].
    + match goal with
      | |- context [add_comments W self pr suggestions ?tr0] =>
          destruct (add_comments_sent W self pr suggestions tr0) as (cs & Hcs);
          destruct (add_comments W self pr suggestions tr0) as [[r|e] tr1]
      end; cbn [snd] in Hcs; subst tr1;
        (eexists; rewrite <- !app_assoc; split; [reflexivity|]; split; [congruence|];
         exists cs; right; exists summary; net_simpl;
         unfold summary_comment at 1; cbn [is_network]; now rewrite ?app_nil_r).
    + eexists. split; [reflexivity|]. split; [congruence|]. exists []. right.
      now exists summary.
  - match goal with
    | |- context [add_comments W self pr suggestions ?tr0] =>
        destruct (add_comments_sent W self pr suggestions tr0) as (cs & Hcs);
        destruct (add_comments W self pr suggestions tr0) as [[r|e] tr1]
    end; cbn [snd] in Hcs; subst tr1;
      (eexists; rewrite <- ?app_assoc; split; [reflexivity|]; split; [congruence|];
       exists cs; left; net_simpl; now rewrite ?app_nil_r).
Qed.

(** [run] ends with [publish_review]. *)
Lemma run_unfold (W : World) (self : CodeReviewPipe) :
  run W self =
    (log INFO "Executing the pipe...";;
     match getenv W "BITBUCKET_PR_ID" with
     | None => raise EnvironmentError
     | Some pull_request_id =>
         diffs_to_review ← get_diffs_to_review W self pull_request_id;
         log DEBUG "{diffs_to_review}";;
         match diffs_to_review with
         | [] =>
             log WARNING "No files for codereview. Check configuration in FILES_TO_REVIEW: {self.files_to_review}"
         | _ :: _ =>
             log INFO "Files with diffs count {len(files_with_diffs)}: {set(files_with_diffs)}";;
             chatgpt_parameters ←
               with_yaml W (chatgpt_parameters_payload_file self)
                 "ChatGPT configuration: client parameters: {users_chatgpt_parameters}"
                 [("base_url", Py.of_env (base_url self));
                  ("api_key", Py.of_env (open_api_key self));
                  ("organization", Py.of_env (organization self))];
             new_ai_service W chatgpt_parameters;;
             code_review ← get_code_review W self diffs_to_review;
             publish_review W self pull_request_id code_review
         end
     end).
Proof. reflexivity. Qed.

(** The calls of [run]: none, or the request of the diff alone, or the
    request of the diff, one call of the completion service and then
    comments, a summary first if there is one. *)
Lemma run_network_shape (W : World) (self : CodeReviewPipe) (tr : list event) :
  exists ext,
    snd (run W self tr) = tr ++ ext /\
    (network ext = [] \/
     exists pr,
       getenv W "BITBUCKET_PR_ID" = Some pr /\
       (network ext = [HttpGet (pull_request_url self pr "diff") (auth_method_bitbucket self)] \/
        exists request cs,
          network ext =
            HttpGet (pull_request_url self pr "diff") (auth_method_bitbucket self)
            :: CreateCompletion request :: map (inline_comment self pr) cs \/
          exists summary,
            network ext =
              HttpGet (pull_request_url self pr "diff") (auth_method_bitbucket self)
              :: CreateCompletion request :: summary_comment self pr summary
              :: map (inline_comment self pr) cs)).
Proof.
  rewrite run_unfold. munfold.
  destruct (getenv W "BITBUCKET_PR_ID") as [pr|] eqn:Hpr.
  2:{ eexists. split; [reflexivity|]. now left. }
  pose proof (get_diffs_to_review_sent W self pr (tr ++ [Log INFO "Executing the pipe..."]))
    as Hget.
  destruct (get_diffs_to_review W self pr (tr ++ [Log INFO "Executing the pipe..."]))
    as [[chunks|e] tr1]; cbn [snd] in Hget; subst tr1.
  2:{ eexists. rewrite <- !app_assoc. split; [reflexivity|]. right. exists pr.
      split; [reflexivity|]. now left. }
  destruct chunks as [|chunk chunks].
  { eexists. rewrite <- !app_assoc. split; [reflexivity|]. right. exists pr.
    split; [reflexivity|]. now left. }
  match goal with
  | |- context [with_yaml W ?f ?t ?p ?tr0] =>
      destruct (with_yaml_local W f t p tr0) as (ext1 & Hext1 & Hnet1);
      destruct (with_yaml W f t p tr0) as [[params|e] tr1]
  end; cbn [snd] in Hext1; subst tr1.
  2:{ eexists. rewrite <- !app_assoc. split; [reflexivity|]. right. exists pr.
      split; [reflexivity|]. left. net_simpl. now rewrite Hnet1. }
  match goal with
  | |- context [new_ai_service W params ?tr0] =>
      destruct (new_ai_service_local W params tr0) as (ext2 & Hext2 & Hnet2);
      destruct (new_ai_service W params tr0) as [[[]|e] tr1]
  end; cbn [snd] in Hext2; subst tr1.
  2:{ eexists. rewrite <- !app_assoc. split; [reflexivity|]. right. exists pr.
      split; [reflexivity|]. left. net_simpl. now rewrite Hnet1, Hnet2. }
  match goal with
  | |- context [get_code_review W self ?d ?tr0] =>
      destruct (get_code_review_shape W self d tr0) as (ext3 & Hext3 & Hnet3);
      destruct (get_code_review W self d tr0) as [[v|e] tr1]
  end; cbn [snd fst] in Hext3, Hnet3; subst tr1.
  2:{ eexists. rewrite <- !app_assoc. split; [reflexivity|]. right. exists pr.
      split; [reflexivity|].
      destruct Hnet3 as [[Hnet3 _]|[request Hnet3]].
      - left. net_simpl. now rewrite Hnet1, Hnet2, Hnet3.
      - right. exists request, []. left. net_simpl. now rewrite Hnet1, Hnet2, Hnet3. }
  match goal with
  | |- context [publish_review W self pr v ?tr0] =>
      destruct (publish_review_shape W self pr v tr0) as (ext4 & Hext4 & Hnull & cs & Hnet4)
  end.
  rewrite Hext4. eexists. rewrite <- !app_assoc. split; [reflexivity|]. right. exists pr.
  split; [reflexivity|].
  destruct Hnet3 as [[Hnet3 Hv]|[request Hnet3]].
  - left. rewrite (Hnull (Hv v eq_refl)). net_simpl. now rewrite Hnet1, Hnet2, Hnet3.
  - right. exists request, cs. destruct Hnet4 as [Hnet4|[summary Hnet4]].
    + left. net_simpl. now rewrite Hnet1, Hnet2, Hnet3, Hnet4.
    + right. exists summary. net_simpl. now rewrite Hnet1, Hnet2, Hnet3, Hnet4.
Qed.

(** X11: whatever the collaborators answer, a run sends no request at all,
    or the request of the diff alone, or the request of the diff followed by
    exactly one call of the completion service and then comments only: at
    most one summary, first, then inline comments. The diff is requested once,
    no comment is sent before the completion service was called, and every
    request carries the credentials the constructor resolved and the
    pull-request identifier of the environment. *)
Theorem main_network_shape (W : World) :
  network (snd (main W)) = [] \/
  exists a pr,
    resolve_auth W = Ok a /\ getenv W "BITBUCKET_PR_ID" = Some pr /\
    (network (snd (main W)) = [HttpGet (pull_request_url (attributes W a) pr "diff") a] \/
     exists request cs,
       network (snd (main W)) =
         HttpGet (pull_request_url (attributes W a) pr "diff") a
         :: CreateCompletion request :: map (inline_comment (attributes W a) pr) cs \/
       exists summary,
         network (snd (main W)) =
           HttpGet (pull_request_url (attributes W a) pr "diff") a
           :: CreateCompletion request :: summary_comment (attributes W a) pr summary
           :: map (inline_comment (attributes W a) pr) cs).
Proof.
  unfold main, init. munfold. destruct (resolve_auth W) as [a|e] eqn:Ha; [|now left].
  destruct (run_network_shape W (attributes W a) []) as (ext & Hext & Hnet).
  rewrite Hext. cbn [app]. destruct Hnet as [Hnet|(pr & Hpr & Hnet)]; [now left|].
  right. exists a, pr. split; [reflexivity|]. split; [assumption|]. exact Hnet.
Qed.

(** ** The token ceiling *)



(** ** Credentials *)

(** X13: the credentials are the username and the app password when both
    are set and not empty, whatever the token; otherwise the access token when
    it is set and not empty; otherwise [ValueError] is raised. An empty
    variable counts as an unset one. *)
Theorem resolve_auth_precedence (W : World) :
  (forall username password,
     resolve_auth W = Ok (HTTPBasicAuth username password) <->
     getenv W "BITBUCKET_USERNAME" = Some username /\
     getenv W "BITBUCKET_APP_PASSWORD" = Some password /\
     username <> EmptyString /\ password <> EmptyString) /\
  (forall token,
     resolve_auth W = Ok (TokenAuth token) <->
     Py.env_truthy (getenv W "BITBUCKET_USERNAME")
     && Py.env_truthy (getenv W "BITBUCKET_APP_PASSWORD") = false /\
     getenv W "BITBUCKET_ACCESS_TOKEN" = Some token /\ token <> EmptyString) /\
  (forall e, resolve_auth W = Raise e <-> e = ValueError /\ auth_missing W = true).
Proof.
  unfold resolve_auth, auth_missing.
  destruct (getenv W "BITBUCKET_USERNAME") as [[|c1 u]|];
    destruct (getenv W "BITBUCKET_APP_PASSWORD") as [[|c2 p]|];
    destruct (getenv W "BITBUCKET_ACCESS_TOKEN") as [[|c3 t]|];
    cbn [Py.env_truthy andb negb];
    (split; [|split]); intros; intuition congruence.
Qed.

Lemma resolve_auth_precedence_witness :
  resolve_auth (world_with_reply review_m_py) = Ok (TokenAuth "secret").
Proof.
  apply (proj2 (proj1 (proj2 (resolve_auth_precedence (world_with_reply review_m_py)))
                  "secret")).
  split; [vm_compute; reflexivity|]. split; [vm_compute; reflexivity | discriminate].
Defined.

(** ** A run that goes through *)







(** ** A diff text as git writes it *)

Lemma strip_prefix_cons (a b : ascii) (p s : string) :
  strip_prefix (String a p) (String b s)
  = if Ascii.eqb a b then strip_prefix p s else None.
Proof. reflexivity. Qed.

Ltac straddle_head :=
  match goal with
  | |- _ -> strip_prefix _ (String ?c ?s +:+ ?x) = None =>
      change (String c s +:+ x) with (String c (s +:+ x))
  end;
  rewrite !strip_prefix_cons;
  match goal with
  | |- context [Ascii.eqb ?a ?c] => destruct (Ascii.eqb a c); [|trivial]
  end.

Ltac straddle_step :=
  lazymatch goal with
  | |- strip_prefix EmptyString _ = None -> _ =>
      let H := fresh in intros H; discriminate H
  | |- strip_prefix (String _ _) ?s = None -> _ =>
      destruct s as [|? ?]; [intros _; reflexivity | straddle_head]
  end.

(** The delimiter of the program cannot start in a text it is not a prefix
    of and end in a delimiter that follows that text. *)
Lemma no_straddle (s rest : string) :
  s <> EmptyString -> strip_prefix DIFF_DELIMITER s = None ->
  strip_prefix DIFF_DELIMITER (s +:+ DIFF_DELIMITER +:+ rest) = None.
Proof.
  intros Hne. destruct s as [|c s]; [congruence|]. clear Hne.
  unfold DIFF_DELIMITER. straddle_head.
  do 13 straddle_step.
Qed.

Lemma cut_clean_app (t rest : string) :
  cut DIFF_DELIMITER t = None ->
  cut DIFF_DELIMITER (t +:+ DIFF_DELIMITER +:+ rest) = Some (t, rest).
Proof.
  induction t as [|c t IH]; intros H.
  - reflexivity.
  - pose proof (cut_None _ _ H EmptyString (String c t) eq_refl) as Hs.
    assert (Ht : cut DIFF_DELIMITER t = None).
    { apply cut_None_intro. intros u v ->. now apply (cut_None _ _ H (String c u) v). }
    change (String c t +:+ DIFF_DELIMITER +:+ rest)
      with (String c (t +:+ DIFF_DELIMITER +:+ rest)).
    cbn [cut].
    change (String c (t +:+ DIFF_DELIMITER +:+ rest))
      with (String c t +:+ DIFF_DELIMITER +:+ rest).
    rewrite (no_straddle (String c t) rest) by (discriminate || assumption).
    now rewrite (IH Ht).
Qed.

(** The pieces of a text made of a clean head and clean sections. *)
Lemma split_sections (texts : list string) :
  Forall (fun text => contains text DIFF_DELIMITER = false) texts ->
  forall head, contains head DIFF_DELIMITER = false ->
    split (head +:+ concat (map (fun text => DIFF_DELIMITER +:+ text) texts)) DIFF_DELIMITER
    = Ok (head :: texts).
Proof.
  induction 1 as [|text texts Htext _ IH]; intros head Hhead.
  - cbn [map concat foldr]. rewrite append_nil_r, split_unfold by discriminate.
    unfold contains in Hhead. now destruct (cut DIFF_DELIMITER head).
  - cbn [map concat foldr]. fold (concat (map (fun t => DIFF_DELIMITER +:+ t) texts)).
    rewrite split_unfold by discriminate. rewrite append_assoc.
    rewrite cut_clean_app
      by (unfold contains in Hhead; now destruct (cut DIFF_DELIMITER head)).
    now rewrite (IH text Htext).
Qed.

(** X15: a diff text made of file sections as git writes them is split
    into the bare delimiter followed by one chunk for each section, in order,
    and the filename extractor returns the path of each section, in order. *)
Theorem sections_round_trip (sections : list (string * string)) :
  Forall well_formed_section sections ->
  fetch_diffs (diff_of_sections sections) [] DIFF_DELIMITER
  = Ok (DIFF_DELIMITER
        :: map (fun section => DIFF_DELIMITER +:+ section_text section) sections) /\
  get_files_with_diffs
    (DIFF_DELIMITER :: map (fun section => DIFF_DELIMITER +:+ section_text section) sections)
  = map fst sections.
Proof.
  intros Hwf. split.
  - unfold fetch_diffs, diff_of_sections.
    pose proof (split_sections (map section_text sections)) as Hs.
    rewrite map_map in Hs. specialize (Hs ltac:(
      apply List.Forall_forall; intros text [section [<- Hin]]%in_map_iff;
      rewrite List.Forall_forall in Hwf; now apply (Hwf section Hin)) EmptyString eq_refl).
    cbn [String.append] in Hs. rewrite Hs. cbn [map]. rewrite map_map.
    now rewrite append_nil_r.
  - change (get_files_with_diffs (DIFF_DELIMITER :: ?l)) with (get_files_with_diffs l).
    unfold get_files_with_diffs. induction Hwf as [|[path rest] l (Hnl & Hcut & _) _ IH];
      [reflexivity|].
    cbn [map flat_map fst]. rewrite IH. unfold section_text at 1. cbn [fst snd].
    pose proof (lazy_star_first path rest Hnl Hcut) as Hl.
    unfold search_filename. rewrite (search_at_delimiter _ _ _ Hl). reflexivity.
Qed.

Lemma sections_round_trip_witness :
  get_files_with_diffs
    (DIFF_DELIMITER
     :: map (fun section => DIFF_DELIMITER +:+ section_text section)
          [("old name.py", "new.py" +:+ nl +:+ "+x = 1" +:+ nl);
           ("b.py", "b.py" +:+ nl +:+ "-y = 2" +:+ nl)])
  = map fst [("old name.py", "new.py" +:+ nl +:+ "+x = 1" +:+ nl);
             ("b.py", "b.py" +:+ nl +:+ "-y = 2" +:+ nl)].
Proof.
  apply (sections_round_trip
           [("old name.py", "new.py" +:+ nl +:+ "+x = 1" +:+ nl);
            ("b.py", "b.py" +:+ nl +:+ "-y = 2" +:+ nl)]).
  repeat constructor.
Defined.
